(** * Shallow embedding of the CCTP relayer core (noble-cctp-relayer)

    Covered: [circle/reattest.go] (ParseExpirationBlock,
    HandleExpiringAttestation, ApplyReattestResult, RemoveMessageFromQueue),
    [circle/attestation.go] (normalizeMessageHash), [types/filter.go]
    (FilterRegistry.Filter), [filters] (DestinationCallerFilter.Filter),
    [solana/chain.go] (IsDestinationCaller, Broadcast, attemptBroadcast),
    the processor worker loop (StartProcessor, the version that runs the
    filter registry) and the HTTP handler getTxByHash.

    Fixed-width Go integers are [Z] values with their wrap-around written
    out; [time.Now()] is an explicit [now] argument; HTTP collaborators are
    explicit oracle functions; logging and metrics are not modelled. *)

From Stdlib Require Import ZArith String Ascii List Bool Lia Arith Permutation.
Import ListNotations.
Open Scope string_scope.
Open Scope Z_scope.

(** ** Machine integers *)

Definition two64 : Z := 2 ^ 64.

(** [uint64] addition wraps modulo 2^64. *)
Definition add64 (a b : Z) : Z := (a + b) mod two64.

Definition is_u64 (x : Z) : Prop := 0 <= x < two64.

(** ** Status constants ([types/message_state.go]); [Status] is a Go string. *)

Definition Created  : string := "created".
Definition Pending  : string := "pending".
Definition Attested : string := "attested".
Definition Complete : string := "complete".
Definition Failed   : string := "failed".
Definition Filtered : string := "filtered".

(** ** [types.MessageState]; [time.Time] fields are [Z] instants. *)

Record MessageState := mkMsg {
  IrisLookupID : string;
  Status : string;
  Attestation : string;
  SourceDomain : Z;            (* uint32 *)
  DestDomain : Z;              (* uint32 *)
  SourceTxHash : string;
  DestTxHash : string;
  DestinationCaller : list Byte.byte;
  Updated : Z;
  Nonce : Z;                   (* uint64 *)
  CctpVersion : string;
  ExpirationBlock : Z;         (* uint64 *)
  ReattestCount : Z;           (* uint *)
  LastReattestTime : Z
}.

(** ** [types.CircleSettings] (the fields the core reads). *)

Record CircleSettings := mkCircle {
  AttestationBaseURL : string;
  APIVersionV2 : bool;         (* GetAPIVersion() == APIVersionV2 *)
  FetchRetries : Z;            (* int *)
  FetchRetryInterval : Z;      (* int *)
  ReattestMaxRetries : Z;      (* uint *)
  ExpirationBufferBlocks : Z   (* uint *)
}.

(** ** Decimal text: [strconv.FormatUint(x, 10)] and [strconv.ParseUint(s, 10, 64)] *)

Definition digit_char (d : Z) : ascii :=
  ascii_of_nat (48 + Z.to_nat d).

Definition digit_val (c : ascii) : option Z :=
  let n := nat_of_ascii c in
  if (48 <=? n)%nat && (n <=? 57)%nat then Some (Z.of_nat n - 48) else None.

(** Digits of [n], most significant first; [fuel] bounds the digit count. *)
Fixpoint format_digits (fuel : nat) (n : Z) : list ascii :=
  match fuel with
  | O => [digit_char (n mod 10)]
  | S fuel' =>
      if n <? 10 then [digit_char n]
      else app (format_digits fuel' (n / 10)) [digit_char (n mod 10)]
  end.

(** [strconv.FormatUint(x, 10)] (also what [%d] prints) for a [uint64]. *)
Definition FormatUint (x : Z) : string :=
  string_of_list_ascii (format_digits 20 x).

Definition step_digit (acc : option Z) (c : ascii) : option Z :=
  match acc, digit_val c with
  | Some a, Some d => Some (a * 10 + d)
  | _, _ => None
  end.

Definition parse_digits (l : list ascii) : option Z :=
  fold_left step_digit l (Some 0).

(** [strconv.ParseUint(s, 10, 64)]: [None] is a syntax or range error.
    With an explicit base 10 Go accepts neither a sign, a prefix nor
    underscores: only a non-empty run of decimal digits whose value fits. *)
Definition ParseUint (s : string) : option Z :=
  match list_ascii_of_string s with
  | [] => None
  | l => match parse_digits l with
         | Some v => if v <? two64 then Some v else None
         | None => None
         end
  end.

(** [circle.ParseExpirationBlock] *)
Definition ParseExpirationBlock (expirationBlock : string) : Z :=
  if String.eqb expirationBlock "" then 0
  else match ParseUint expirationBlock with
       | Some block => block
       | None => 0
       end.

(** ** [circle.normalizeMessageHash] (byte strings: [len] counts bytes). *)
Definition normalizeMessageHash (hash : string) : string :=
  if (2 <? String.length hash)%nat && negb (String.eqb (substring 0 2 hash) "0x")
  then "0x" ++ hash
  else hash.

(** ** Field updates of a [MessageState] (Go assigns through the pointer). *)

Definition set_Status (s : string) (m : MessageState) : MessageState :=
  mkMsg (IrisLookupID m) s (Attestation m) (SourceDomain m) (DestDomain m)
    (SourceTxHash m) (DestTxHash m) (DestinationCaller m) (Updated m) (Nonce m)
    (CctpVersion m) (ExpirationBlock m) (ReattestCount m) (LastReattestTime m).

Definition set_Attestation (a : string) (m : MessageState) : MessageState :=
  mkMsg (IrisLookupID m) (Status m) a (SourceDomain m) (DestDomain m)
    (SourceTxHash m) (DestTxHash m) (DestinationCaller m) (Updated m) (Nonce m)
    (CctpVersion m) (ExpirationBlock m) (ReattestCount m) (LastReattestTime m).

Definition set_Updated (t : Z) (m : MessageState) : MessageState :=
  mkMsg (IrisLookupID m) (Status m) (Attestation m) (SourceDomain m) (DestDomain m)
    (SourceTxHash m) (DestTxHash m) (DestinationCaller m) t (Nonce m)
    (CctpVersion m) (ExpirationBlock m) (ReattestCount m) (LastReattestTime m).

Definition set_CctpVersion (v : string) (m : MessageState) : MessageState :=
  mkMsg (IrisLookupID m) (Status m) (Attestation m) (SourceDomain m) (DestDomain m)
    (SourceTxHash m) (DestTxHash m) (DestinationCaller m) (Updated m) (Nonce m)
    v (ExpirationBlock m) (ReattestCount m) (LastReattestTime m).

Definition set_ExpirationBlock (b : Z) (m : MessageState) : MessageState :=
  mkMsg (IrisLookupID m) (Status m) (Attestation m) (SourceDomain m) (DestDomain m)
    (SourceTxHash m) (DestTxHash m) (DestinationCaller m) (Updated m) (Nonce m)
    (CctpVersion m) b (ReattestCount m) (LastReattestTime m).

Definition set_ReattestCount (c : Z) (m : MessageState) : MessageState :=
  mkMsg (IrisLookupID m) (Status m) (Attestation m) (SourceDomain m) (DestDomain m)
    (SourceTxHash m) (DestTxHash m) (DestinationCaller m) (Updated m) (Nonce m)
    (CctpVersion m) (ExpirationBlock m) c (LastReattestTime m).

Definition set_LastReattestTime (t : Z) (m : MessageState) : MessageState :=
  mkMsg (IrisLookupID m) (Status m) (Attestation m) (SourceDomain m) (DestDomain m)
    (SourceTxHash m) (DestTxHash m) (DestinationCaller m) (Updated m) (Nonce m)
    (CctpVersion m) (ExpirationBlock m) (ReattestCount m) t.

(** ** Attestation service (the HTTP client, an external collaborator) *)

Record AttestationResponse := mkResp {
  RespAttestation : string;
  RespStatus : string
}.

(** The first element of a v2 [/v2/messages] response. *)
Record MessageResponseV2 := mkV2 {
  V2CctpVersion : string;
  V2ExpirationBlock : string
}.

(** The answers the service gives: [inl e] / [None] are the error results. *)
Record AttestationService := mkService {
  (* RequestReattestation(baseURL, logger, sourceDomain, nonce) *)
  svc_reattest : Z -> Z -> string + AttestationResponse;
  (* GetAttestationV2Message(baseURL, logger, txHash, sourceDomain) *)
  svc_v2_message : string -> Z -> option MessageResponseV2;
  (* CheckAttestation(cfg, logger, irisLookupID, txHash, src, dest); nil is [None] *)
  svc_check : MessageState -> option AttestationResponse
}.

(** HTTP requests issued by the re-attestation logic, in order. *)
Inductive HttpCall :=
| CallReattest (sourceDomain nonce : Z)
| CallGetV2Message (txHash : string) (sourceDomain : Z).

(** ** [circle.ReattestResult] *)

Record ReattestResult := mkResult {
  ShouldReattest : bool;
  NewAttestation : string;
  NewExpirationBlock : Z;      (* uint64 *)
  ExhaustedRetries : bool;
  RemoveFromQueue : bool
}.

Definition emptyResult : ReattestResult := mkResult false "" 0 false false.

(** [maxRetries] after the default of [HandleExpiringAttestation]. *)
Definition maxRetriesOf (cfg : CircleSettings) : Z :=
  if ReattestMaxRetries cfg =? 0 then 3 else ReattestMaxRetries cfg.

(** [circle.HandleExpiringAttestation]: the result, the returned error
    (its message) and the HTTP requests made. *)
Definition HandleExpiringAttestation (svc : AttestationService)
    (msg : MessageState) (cfg : CircleSettings) (currentBlock : Z)
    : ReattestResult * option string * list HttpCall :=
  if ExpirationBlock msg =? 0 then (emptyResult, None, [])
  else
    let bufferBlocks := ExpirationBufferBlocks cfg in
    if add64 currentBlock bufferBlocks <? ExpirationBlock msg
    then (emptyResult, None, [])
    else
      let maxRetries := maxRetriesOf cfg in
      if maxRetries <=? ReattestCount msg then
        (mkResult true "" 0 true false,
         Some ("max re-attestation attempts reached for nonce " ++ FormatUint (Nonce msg)
               ++ " (attempts: " ++ FormatUint (ReattestCount msg) ++ ")"),
         [])
      else
        match svc_reattest svc (SourceDomain msg) (Nonce msg) with
        | inl err =>
            (mkResult true "" 0 false true,
             Some ("re-attestation failed for nonce " ++ FormatUint (Nonce msg) ++ ": " ++ err),
             [CallReattest (SourceDomain msg) (Nonce msg)])
        | inr newAttestation =>
            let calls := [CallReattest (SourceDomain msg) (Nonce msg);
                          CallGetV2Message (SourceTxHash msg) (SourceDomain msg)] in
            match svc_v2_message svc (SourceTxHash msg) (SourceDomain msg) with
            | None =>
                (mkResult true (RespAttestation newAttestation) 0 false false, None, calls)
            | Some updatedMsg =>
                (mkResult true (RespAttestation newAttestation)
                   (ParseExpirationBlock (V2ExpirationBlock updatedMsg)) false false,
                 None, calls)
            end
        end.

(** [circle.ApplyReattestResult] at instant [now] (the lock is the caller's). *)
Definition ApplyReattestResult (now : Z) (msg : MessageState) (result : ReattestResult)
    : MessageState :=
  if negb (ShouldReattest result) then msg
  else
    let msg1 := set_LastReattestTime now (set_ReattestCount (add64 (ReattestCount msg) 1) msg) in
    if ExhaustedRetries result then set_Updated now (set_Status Failed msg1)
    else
      let msg2 := if negb (String.eqb (NewAttestation result) "")
                  then set_Updated now (set_Attestation (NewAttestation result) msg1)
                  else msg1 in
      if 0 <? NewExpirationBlock result then set_ExpirationBlock (NewExpirationBlock result) msg2
      else msg2.

(** ** Filters ([types.MessageFilter], [types.FilterRegistry]) *)

(** A filter's [Filter(ctx, msg)] answer: [(shouldFilter, reason, err)]. *)
Record MessageFilter := mkFilter {
  FilterName : string;
  FilterFn : MessageState -> bool * string * option string
}.

(** [FilterRegistry.Filter], also returning how many filters it called. *)
Fixpoint registry_filter_run (filters : list MessageFilter) (msg : MessageState)
    : bool * string * nat :=
  match filters with
  | [] => (false, "", O)
  | filter :: rest =>
      match FilterFn filter msg with
      | (_, _, Some _) =>                        (* logged; continue *)
          let '(b, r, n) := registry_filter_run rest msg in (b, r, S n)
      | (true, filterReason, None) => (true, filterReason, 1%nat)
      | (false, _, None) =>
          let '(b, r, n) := registry_filter_run rest msg in (b, r, S n)
      end
  end.

Definition FilterRegistry_Filter (filters : list MessageFilter) (msg : MessageState)
    : bool * string :=
  let '(b, r, _) := registry_filter_run filters msg in (b, r).

(** A filter that answers [drop = true] without an error. *)
Definition filter_matches (f : MessageFilter) (msg : MessageState) : bool :=
  match FilterFn f msg with
  | (true, _, None) => true
  | _ => false
  end.

(** ** Chains (the [types.Chain] operations the core uses) *)

(** [Broadcast(ctx, logger, msgs, sequenceMap, metrics)] answers, per
    message of the batch, [Some sig] when it minted that message (the
    broadcaster then sets [Status = Complete] and [DestTxHash = sig], as
    [(s *Solana) attemptBroadcast] does), and [true] when it returned no error. *)
Record Chain := mkChain {
  ChainName : string;
  LatestBlock : Z;
  IsDestinationCaller : list Byte.byte -> bool * string;
  ChainBroadcast : list MessageState -> list (option string) * bool
}.

(** [registeredDomains]: a Go map read by key only. *)
Fixpoint lookup_domain (d : Z) (m : list (Z * Chain)) : option Chain :=
  match m with
  | [] => None
  | (k, c) :: rest => if k =? d then Some c else lookup_domain d rest
  end.

Definition zeroByteArr : list Byte.byte := repeat Byte.x00 32.

Fixpoint bytes_eqb (a b : list Byte.byte) : bool :=
  match a, b with
  | [], [] => true
  | x :: a', y :: b' => Byte.eqb x y && bytes_eqb a' b'
  | _, _ => false
  end.

(** [(s *Solana) IsDestinationCaller] of [solana/chain.go]; the public-key decoding
    ([BytesToSolanaPublicKey]) and the printing of keys and bytes are
    parameters: [decode] gives [None] on a decoding error. *)
Definition Solana_IsDestinationCaller
    (decode : list Byte.byte -> option string) (hexEncode : list Byte.byte -> string)
    (minterAddress : string) (destinationCaller : list Byte.byte) : bool * string :=
  if bytes_eqb destinationCaller zeroByteArr then (true, "")
  else match decode destinationCaller with
       | None => (false, hexEncode destinationCaller)
       | Some solanaAddr => (String.eqb solanaAddr minterAddress, solanaAddr)
       end.

(** [(f *DestinationCallerFilter) Filter] of [filters] *)
Definition DestinationCallerFilter_Filter (registeredDomains : list (Z * Chain))
    (destinationCallerOnly : bool) (msg : MessageState) : bool * string * option string :=
  match lookup_domain (DestDomain msg) registeredDomains with
  | None =>
      (true, "destination caller check failed: no chain registered for dest_domain="
               ++ FormatUint (DestDomain msg), None)
  | Some chain =>
      let '(validCaller, address) := IsDestinationCaller chain (DestinationCaller msg) in
      if validCaller then (false, "", None)
      else if destinationCallerOnly || negb (String.eqb address "") then
        (true, "destination caller mismatch: source_domain=" ++ FormatUint (SourceDomain msg)
                 ++ " dest_domain=" ++ FormatUint (DestDomain msg) ++ " caller=" ++ address,
         None)
      else (false, "", None)
  end.

(** ** Processor worker ([StartProcessor]) *)

Record TxState := mkTx {
  TxHash : string;
  Msgs : list MessageState;
  RetryAttempt : Z             (* int *)
}.

Definition set_Msgs (ms : list MessageState) (tx : TxState) : TxState :=
  mkTx (TxHash tx) ms (RetryAttempt tx).

Definition set_RetryAttempt (r : Z) (tx : TxState) : TxState :=
  mkTx (TxHash tx) (Msgs tx) r.

Definition set_DestTxHash (h : string) (m : MessageState) : MessageState :=
  mkMsg (IrisLookupID m) (Status m) (Attestation m) (SourceDomain m) (DestDomain m)
    (SourceTxHash m) h (DestinationCaller m) (Updated m) (Nonce m)
    (CctpVersion m) (ExpirationBlock m) (ReattestCount m) (LastReattestTime m).

(** Apply [f] at position [i] (Go writes through the element's pointer). *)
Fixpoint upd {A} (l : list A) (i : nat) (f : A -> A) : list A :=
  match l, i with
  | [], _ => []
  | x :: l', O => f x :: l'
  | x :: l', S i' => x :: upd l' i' f
  end.

(** What a pass sees of the outside world: the clock, the attestation
    service, the filter registry ([None] when it is nil) and the chains. *)
Record Env := mkEnv {
  env_now : Z;
  env_svc : AttestationService;
  env_filters : option (list MessageFilter);
  env_domains : list (Z * Chain)
}.

(** [broadcastMsgs : map[Domain][]*MessageState]; a message is its index
    in [tx.Msgs]. *)
Definition BroadcastQueue := list (Z * list nat).

Fixpoint bq_append (d : Z) (i : nat) (q : BroadcastQueue) : BroadcastQueue :=
  match q with
  | [] => [(d, [i])]
  | (k, l) :: q' => if k =? d then (k, app l [i]) :: q' else (k, l) :: bq_append d i q'
  end.

(** [circle.RemoveMessageFromQueue]: drop the message, delete an emptied bucket. *)
Fixpoint RemoveMessageFromQueue (q : BroadcastQueue) (d : Z) (i : nat) : BroadcastQueue :=
  match q with
  | [] => []
  | (k, l) :: q' =>
      if k =? d then
        match filter (fun j => negb (Nat.eqb j i)) l with
        | [] => q'
        | l' => (k, l') :: q'
        end
      else (k, l) :: RemoveMessageFromQueue q' d i
  end.

(** The Fast Transfer expiration step of the message loop. *)
Definition expiry_step (env : Env) (cfg : CircleSettings) (i : nat) (msg : MessageState)
    (bq : BroadcastQueue) (requeue : bool) : MessageState * BroadcastQueue * bool :=
  if APIVersionV2 cfg && String.eqb (Status msg) Attested && (0 <? ExpirationBlock msg) then
    match lookup_domain (DestDomain msg) (env_domains env) with
    | Some destChain =>
        let '(result, _, _) :=
          HandleExpiringAttestation (env_svc env) msg cfg (LatestBlock destChain) in
        let msg' := ApplyReattestResult (env_now env) msg result in
        if RemoveFromQueue result
        then (msg', RemoveMessageFromQueue bq (DestDomain msg') i, true)
        else (msg', bq, requeue)
    | None => (msg, bq, requeue)
    end
  else (msg, bq, requeue).

(** The filter step: mark [Filtered] when the registry drops the message. *)
Definition filter_step (env : Env) (msg : MessageState) : MessageState :=
  match env_filters env with
  | Some filters =>
      if fst (FilterRegistry_Filter filters msg) then set_Status Filtered msg else msg
  | None => msg
  end.

(** One iteration of [for _, msg := range tx.Msgs]; a Go [continue] ends it. *)
Definition process_msg (env : Env) (cfg : CircleSettings) (i : nat) (msg0 : MessageState)
    (bq : BroadcastQueue) (requeue : bool) : MessageState * BroadcastQueue * bool :=
  let msg := filter_step env msg0 in
  if String.eqb (Status msg) Created || String.eqb (Status msg) Pending then
    match svc_check (env_svc env) msg with
    | None => (msg, bq, true)
    | Some response =>
        if String.eqb (Status msg) Created
           && String.eqb (RespStatus response) "pending_confirmations" then
          (set_Updated (env_now env) (set_Status Pending msg), bq, true)
        else if String.eqb (RespStatus response) "pending_confirmations" then
          (msg, bq, true)
        else if String.eqb (RespStatus response) "complete" then
          let msg2 := set_Updated (env_now env)
                        (set_Attestation (RespAttestation response) (set_Status Attested msg)) in
          let msg3 :=
            if APIVersionV2 cfg then
              match svc_v2_message (env_svc env) (SourceTxHash msg2) (SourceDomain msg2) with
              | Some msgResp =>
                  set_ExpirationBlock (ParseExpirationBlock (V2ExpirationBlock msgResp))
                    (set_CctpVersion (V2CctpVersion msgResp) msg2)
              | None => msg2
              end
            else msg2 in
          expiry_step env cfg i msg3 (bq_append (DestDomain msg3) i bq) requeue
        else expiry_step env cfg i msg bq requeue   (* unknown status: logged *)
    end
  else expiry_step env cfg i msg bq requeue.

Fixpoint process_msgs (env : Env) (cfg : CircleSettings) (i : nat) (ms : list MessageState)
    (bq : BroadcastQueue) (requeue : bool) : list MessageState * BroadcastQueue * bool :=
  match ms with
  | [] => ([], bq, requeue)
  | m :: ms' =>
      let '(m', bq1, rq1) := process_msg env cfg i m bq requeue in
      let '(ms'', bq2, rq2) := process_msgs env cfg (S i) ms' bq1 rq1 in
      (m' :: ms'', bq2, rq2)
  end.

(** The broadcaster's per-message effect. *)
Fixpoint write_back (idxs : list nat) (sigs : list (option string)) (ms : list MessageState)
    : list MessageState :=
  match idxs, sigs with
  | j :: idxs', Some sig :: sigs' =>
      write_back idxs' sigs' (upd ms j (fun m => set_DestTxHash sig (set_Status Complete m)))
  | _ :: idxs', None :: sigs' => write_back idxs' sigs' ms
  | _, _ => ms
  end.

Definition mark_complete (now : Z) (idxs : list nat) (ms : list MessageState)
    : list MessageState :=
  fold_left (fun acc j => upd acc j (fun m => set_Updated now (set_Status Complete m))) idxs ms.

(** [for domain, msgs := range broadcastMsgs] (the map's own order). *)
Fixpoint broadcast_all (env : Env) (bq : BroadcastQueue) (ms : list MessageState)
    (requeue : bool) : list MessageState * bool :=
  match bq with
  | [] => (ms, requeue)
  | (domain, idxs) :: bq' =>
      match lookup_domain domain (env_domains env) with
      | None => broadcast_all env bq' ms requeue      (* logged; continue *)
      | Some chain =>
          let batch := flat_map (fun j => match nth_error ms j with
                                          | Some m => [m] | None => [] end) idxs in
          let '(sigs, ok) := ChainBroadcast chain batch in
          let ms1 := write_back idxs sigs ms in
          if ok then broadcast_all env bq' (mark_complete (env_now env) idxs ms1) requeue
          else broadcast_all env bq' ms1 true
      end
  end.

(** The worker's shared world: [State] (tx hash to TxState pointer), the
    TxStates by pointer, and [processingQueue] (a FIFO of pointers). *)
Record World := mkWorld {
  store : list (string * nat);
  heap : list TxState;
  queue : list nat
}.

Fixpoint lookup_store (h : string) (s : list (string * nat)) : option nat :=
  match s with
  | [] => None
  | (k, p) :: s' => if String.eqb k h then Some p else lookup_store h s'
  end.

(** The body of a worker iteration once [tx] (pointer [t]) has been loaded
    from the store; [p] is the dequeued pointer, [rest] the remaining queue. *)
Definition process_stored (cfg : CircleSettings) (env : Env) (store1 : list (string * nat))
    (heap1 : list TxState) (t p : nat) (rest : list nat) : option World :=
  match nth_error heap1 t with
  | None => None
  | Some tx =>
      let '(ms1, bq, rq1) := process_msgs env cfg O (Msgs tx) [] false in
      let '(ms2, requeue) := broadcast_all env bq ms1 rq1 in
      let heap2 := upd heap1 t (set_Msgs ms2) in
      let w' := mkWorld store1 heap2 rest in
      if requeue then
        (* requeue txs, ensure not to exceed retry limit *)
        match nth_error heap2 p with
        | Some dequeuedTx =>
            if RetryAttempt dequeuedTx <? FetchRetries cfg
            then Some (mkWorld store1
                         (upd heap2 p (fun d => set_RetryAttempt (RetryAttempt d + 1) d))
                         (app rest [t]))
            else Some w'                      (* retry limit exceeded: dropped *)
        | None => Some w'
        end
      else Some w'
  end.

(** One iteration of the worker's [for] loop; [None] when the queue is empty. *)
Definition worker_pass (cfg : CircleSettings) (env : Env) (w : World) : option World :=
  match queue w with
  | [] => None
  | p :: rest =>
      match nth_error (heap w) p with
      | None => None
      | Some dequeuedTx =>
          match lookup_store (TxHash dequeuedTx) (store w) with
          | Some t => process_stored cfg env (store w) (heap w) t p rest
          | None =>
              (* first sight of this hash: store it, all messages Created *)
              process_stored cfg env (app (store w) [(TxHash dequeuedTx, p)])
                (upd (heap w) p (fun tx => set_Msgs (map (set_Status Created) (Msgs tx)) tx))
                p p rest
          end
      end
  end.


(** ** Base URL and request URLs ([circle/attestation.go], [circle/reattest.go]) *)

(** [strings.HasSuffix] *)
Definition HasSuffix (s suffix : string) : bool :=
  (String.length suffix <=? String.length s)%nat
  && String.eqb (substring (String.length s - String.length suffix) (String.length suffix) s)
       suffix.

(** [strings.TrimSuffix] *)
Definition TrimSuffix (s suffix : string) : string :=
  if HasSuffix s suffix then substring 0 (String.length s - String.length suffix) s else s.

(** [circle.normalizeBaseURL] *)
Definition normalizeBaseURL (url : string) : string :=
  TrimSuffix (TrimSuffix url "/") "/attestations".

(** [RequestReattestation]: [%s/v2/reattest/%d/%d]. *)
Definition reattest_url (baseURL : string) (sourceDomain nonce : Z) : string :=
  normalizeBaseURL baseURL ++ "/v2/reattest/" ++ FormatUint sourceDomain ++ "/"
  ++ FormatUint nonce.

(** [checkAttestationV2], [CheckAttestationV2All], [GetAttestationV2Message]:
    [%s/v2/messages/%d?transactionHash=%s]. *)
Definition v2_messages_url (baseURL : string) (sourceDomain : Z) (txHash : string) : string :=
  normalizeBaseURL baseURL ++ "/v2/messages/" ++ FormatUint sourceDomain
  ++ "?transactionHash=" ++ normalizeMessageHash txHash.

(** [checkAttestationV1]: [%s/attestations/%s]. *)
Definition v1_attestation_url (baseURL irisLookupID : string) : string :=
  normalizeBaseURL baseURL ++ "/attestations/" ++ normalizeMessageHash irisLookupID.

(** The URL of each request [HandleExpiringAttestation] makes. *)
Definition http_call_url (baseURL : string) (c : HttpCall) : string :=
  match c with
  | CallReattest d n => reattest_url baseURL d n
  | CallGetV2Message tx d => v2_messages_url baseURL d tx
  end.

(** ** The HTTP API ([getTxByHash]) *)

Inductive NumError := ErrSyntax | ErrRange.

(** The digit loop of [strconv.ParseUint] with base 10: the first bad
    character is a syntax error, the first digit that takes the value past
    [maxVal] a range error answering [maxVal]. (Go's separate 64-bit overflow
    tests are the same test on [Z].) *)
Fixpoint parse_uint_loop (maxVal n : Z) (l : list ascii) : Z * option NumError :=
  match l with
  | [] => (n, None)
  | c :: l' =>
      match digit_val c with
      | None => (0, Some ErrSyntax)
      | Some d =>
          let n1 := n * 10 + d in
          if maxVal <? n1 then (maxVal, Some ErrRange) else parse_uint_loop maxVal n1 l'
      end
  end.

(** [strconv.ParseUint(s, 10, bitSize)] *)
Definition ParseUintBits (s : string) (bitSize : Z) : Z * option NumError :=
  match list_ascii_of_string s with
  | [] => (0, Some ErrSyntax)
  | l => parse_uint_loop (2 ^ bitSize - 1) 0 l
  end.

(** [strconv.ParseInt(s, 10, bitSize)] *)
Definition ParseInt (s : string) (bitSize : Z) : Z * option NumError :=
  match s with
  | EmptyString => (0, Some ErrSyntax)
  | String c rest =>
      let '(neg, s1) :=
        if Ascii.eqb c "+"%char then (false, rest)
        else if Ascii.eqb c "-"%char then (true, rest) else (false, s) in
      let '(un, err) := ParseUintBits s1 bitSize in
      match err with
      | Some ErrSyntax => (0, Some ErrSyntax)
      | _ =>
          let cutoff := 2 ^ (bitSize - 1) in
          if negb neg && (cutoff <=? un) then (cutoff - 1, Some ErrRange)
          else if neg && (cutoff <? un) then (- cutoff, Some ErrRange)
          else (if neg then - un else un, None)
      end
  end.

(** [State.Load(txHash)] *)
Definition State_Load (w : World) (txHash : string) : option TxState :=
  match lookup_store txHash (store w) with
  | Some p => nth_error (heap w) p
  | None => None
  end.

Inductive ApiBody :=
  | BodyMsgs (ms : list MessageState)
  | BodyMessage (text : string).

(** What the handler wrote ([c.JSON] calls, in order) and whether it
    panicked (gin's recovery then answers 500). *)
Record ApiResponse := mkApiResponse {
  api_writes : list (Z * ApiBody);
  api_panicked : bool
}.

(** [getTxByHash] for [GET /tx/:txHash?domain=...]; an absent [domain]
    query is [""]. The condition is Go's
    [ok && domain == "" || (domain != "" && tx.Msgs[0].SourceDomain == ...)]. *)
Definition getTxByHash (w : World) (txHash domain : string) : ApiResponse :=
  let '(domainInt, err) := ParseInt domain 32 in
  let w1 := if negb (String.eqb domain "")
                && match err with Some _ => true | None => false end
            then [(400, BodyMessage "unable to parse domain")] else [] in
  match State_Load w txHash, String.eqb domain "" with
  | Some tx, true => mkApiResponse (app w1 [(200, BodyMsgs (Msgs tx))]) false
  | None, true => mkApiResponse (app w1 [(404, BodyMessage "message not found")]) false
  | None, false => mkApiResponse w1 true          (* tx is nil: tx.Msgs *)
  | Some tx, false =>
      match Msgs tx with
      | [] => mkApiResponse w1 true               (* tx.Msgs[0] out of range *)
      | m0 :: _ =>
          if SourceDomain m0 =? domainInt mod 2 ^ 32     (* Domain(uint32(domainInt)) *)
          then mkApiResponse (app w1 [(200, BodyMsgs (Msgs tx))]) false
          else mkApiResponse (app w1 [(404, BodyMessage "message not found")]) false
      end
  end.

(** ** The Solana broadcaster ([(s *Solana) Broadcast]) *)

Definition is_hex_char (c : ascii) : bool :=
  let n := nat_of_ascii c in
  ((48 <=? n) && (n <=? 57) || (97 <=? n) && (n <=? 102) || (65 <=? n) && (n <=? 70))%nat.

(** [hex.DecodeString(s)] succeeds exactly on an even number of hex digits. *)
Definition hex_decodes (s : string) : bool :=
  Nat.even (String.length s) && forallb is_hex_char (list_ascii_of_string s).

Definition hex_digit (n : nat) : ascii :=
  if (n <? 10)%nat then ascii_of_nat (48 + n) else ascii_of_nat (87 + n).

(** [hex.EncodeToString] *)
Definition EncodeToString (b : list Byte.byte) : string :=
  string_of_list_ascii
    (flat_map (fun x => [hex_digit (Byte.to_nat x / 16); hex_digit (Byte.to_nat x mod 16)]) b).

(** The inner [for attempt := 0; attempt <= s.maxRetries; attempt++] loop
    for one message, [n] iterations left from attempt [k]; [attempt msg k]
    is [attemptBroadcast] (the signature on success). Returns the message,
    the number of [attemptBroadcast] calls and whether [continue MsgLoop]
    was reached. *)
Fixpoint broadcast_attempts (attempt : MessageState -> nat -> option string) (n k : nat)
    (msg : MessageState) : MessageState * nat * bool :=
  match n with
  | O => (msg, O, false)
  | S n' =>
      if String.eqb (Status msg) Complete then (msg, O, true)
      else match attempt msg k with
           | Some sig => (set_DestTxHash sig (set_Status Complete msg), 1%nat, true)
           | None =>
               let '(m', c, ok) := broadcast_attempts attempt n' (S k) msg in (m', S c, ok)
           end
  end.

(** The outcome of [Broadcast]: a panic ([msg.Attestation[2:]] on a string
    shorter than 2), the decode error, or the [errors.Join] of [nerrs]
    "reached max number of broadcast attempts" errors (nil when 0); with the
    messages as left in place. *)
Inductive BroadcastOutcome :=
  | BroadcastPanic (ms : list MessageState)
  | BroadcastDecodeError (ms : list MessageState)
  | BroadcastJoined (ms : list MessageState) (nerrs : nat).

Fixpoint Solana_Broadcast_loop (maxRetries : Z) (attempt : MessageState -> nat -> option string)
    (ms : list MessageState) (nerrs : nat) : BroadcastOutcome :=
  match ms with
  | [] => BroadcastJoined [] nerrs
  | msg :: ms' =>
      if (String.length (Attestation msg) <? 2)%nat then BroadcastPanic ms
      else if negb (hex_decodes (substring 2 (String.length (Attestation msg) - 2)
                                   (Attestation msg)))
      then BroadcastDecodeError ms
      else
        let '(msg', _, ok) := broadcast_attempts attempt (Z.to_nat (maxRetries + 1)) O msg in
        match Solana_Broadcast_loop maxRetries attempt ms' (if ok then nerrs else S nerrs) with
        | BroadcastPanic r => BroadcastPanic (msg' :: r)
        | BroadcastDecodeError r => BroadcastDecodeError (msg' :: r)
        | BroadcastJoined r n => BroadcastJoined (msg' :: r) n
        end
  end.

Definition Solana_Broadcast (maxRetries : Z) (attempt : MessageState -> nat -> option string)
    (ms : list MessageState) : BroadcastOutcome :=
  Solana_Broadcast_loop maxRetries attempt ms O.

(** ** Vocabulary for the properties *)

(** [strings.Contains(s, sub)] *)
Fixpoint str_contains (sub s : string) : bool :=
  String.prefix sub s
  || match s with
     | EmptyString => false
     | String _ s' => str_contains sub s'
     end.

Definition is_digit (c : ascii) : Prop := (48 <= nat_of_ascii c <= 57)%nat.

(** Value of a digit string read left to right. *)
Definition decimal_value (l : list ascii) : Z :=
  fold_left (fun a c => a * 10 + (Z.of_nat (nat_of_ascii c) - 48)) l 0.

(** A valid decimal [uint64] text: non-empty, digits only, value below 2^64. *)
Definition valid_decimal_u64 (s : string) : Prop :=
  list_ascii_of_string s <> [] /\ Forall is_digit (list_ascii_of_string s)
  /\ decimal_value (list_ascii_of_string s) < two64.

Definition is_terminal (s : string) : Prop :=
  s = Complete \/ s = Failed \/ s = Filtered.

(** The re-attestation budget of a message: at most [maxRetriesOf cfg]
    attempts, one more only once the message has left the pipeline. *)
Definition reattest_budget (cfg : CircleSettings) (m : MessageState) : Prop :=
  0 <= ReattestCount m
  /\ (ReattestCount m <= maxRetriesOf cfg
      \/ (ReattestCount m = maxRetriesOf cfg + 1 /\ is_terminal (Status m))).

(** The entry of domain [d] in the broadcast queue. *)
Fixpoint bq_lookup (d : Z) (q : BroadcastQueue) : option (list nat) :=
  match q with
  | [] => None
  | (k, l) :: q' => if k =? d then Some l else bq_lookup d q'
  end.

(** A queue that is a Go map of non-empty slices: no key twice, no empty entry. *)
Definition bq_wf (q : BroadcastQueue) : Prop :=
  NoDup (map fst q) /\ Forall (fun e => snd e <> []) q.

(** [msg.Attestation[2:]] exists and [hex.DecodeString] accepts it. *)
Definition attestation_decodes (m : MessageState) : bool :=
  (2 <=? String.length (Attestation m))%nat
  && hex_decodes (substring 2 (String.length (Attestation m) - 2) (Attestation m)).


(** ** Sample inputs (the scenarios of the specification) *)

Definition sample_msg : MessageState :=
  mkMsg "abc" Attested "old" 0 4 "0xtx" "" zeroByteArr 0 7 "2" 1000 0 0.

Definition sample_cfg : CircleSettings := mkCircle "https://iris-api.circle.com" true 2 0 3 100.

Definition sample_svc : AttestationService :=
  mkService (fun _ _ => inr (mkResp "new" "complete"))
            (fun _ _ => Some (mkV2 "2" "2000"))
            (fun _ => None).

(** A Solana destination whose minter key is "minter". *)
Definition sample_solana : Chain :=
  mkChain "solana" 920
    (Solana_IsDestinationCaller (fun _ => Some "other") (fun _ => "00") "minter")
    (fun ms => (map (fun _ => None) ms, true)).

Definition sample_tx : TxState := mkTx "1" [set_Status "" sample_msg] 0.

Definition absent_env : Env := mkEnv 1 sample_svc None [].

(** A filter that drops every message, and a stored transaction whose only
    message has already been broadcast. *)
Definition drop_all_filter : MessageFilter :=
  mkFilter "drop-all" (fun _ => (true, "dropped", None)).

Definition drop_all_env : Env := mkEnv 1 sample_svc (Some [drop_all_filter]) [].

Definition completed_world : World :=
  mkWorld [("1", O)] [mkTx "1" [set_Status Complete sample_msg] 0] [O].

(** Scenario S5 inside the worker: a stored transaction whose attested
    message has used all three re-attestations, its destination chain at
    block 920 (within the 100-block buffer of expiration block 1000). *)
Definition budget_env : Env := mkEnv 1 sample_svc None [(4, sample_solana)].

Definition budget_world : World :=
  mkWorld [("1", O)] [mkTx "1" [set_ReattestCount 3 sample_msg] 0] [O].

(** A service whose re-attestation succeeds but whose v2 message lookup
    fails, and one whose re-attestation request fails. *)
Definition stale_svc : AttestationService :=
  mkService (fun _ _ => inr (mkResp "fresh" "complete")) (fun _ _ => None) (fun _ => None).

Definition failing_svc : AttestationService :=
  mkService (fun _ _ => inl "503") (fun _ _ => None) (fun _ => None).

Definition failing_env : Env := mkEnv 1 failing_svc None [(4, sample_solana)].

(** A broadcast queue with two messages for domain 4 and one for domain 5. *)
Definition sample_bq : BroadcastQueue := [(4, [O; 1%nat]); (5, [2%nat])].

(** A Solana destination that prints undecodable callers with
    [hex.EncodeToString], and whose key decoding fails. *)
Definition hex_solana : Chain :=
  mkChain "solana" 920 (Solana_IsDestinationCaller (fun _ => None) EncodeToString "minter")
    (fun ms => (map (fun _ => None) ms, true)).

(** An attested message whose attestation decodes, and a signer that
    succeeds at its second attempt. *)
Definition hex_msg : MessageState := set_Attestation "0xabcd" sample_msg.

Definition second_try (m : MessageState) (k : nat) : option string :=
  if Nat.eqb k 1 then Some "sig" else None.

(** * Properties *)

(** ** Decimal text *)

Lemma digit_val_char (d : Z) : 0 <= d < 10 -> digit_val (digit_char d) = Some d.
Proof.
  intros Hd.
  assert (d = 0 \/ d = 1 \/ d = 2 \/ d = 3 \/ d = 4 \/ d = 5 \/ d = 6 \/ d = 7
          \/ d = 8 \/ d = 9) as Hc by lia.
  repeat destruct Hc as [-> | Hc]; try reflexivity; subst; reflexivity.
Qed.

Lemma parse_digits_snoc (l : list ascii) (c : ascii) :
  parse_digits (app l [c]) = step_digit (parse_digits l) c.
Proof. unfold parse_digits. now rewrite fold_left_app. Qed.

Lemma parse_format_digits (fuel : nat) (n : Z) :
  0 <= n < 10 ^ Z.of_nat (S fuel) -> parse_digits (format_digits fuel n) = Some n.
Proof.
  revert n; induction fuel as [|fuel IH]; intros n Hn.
  - simpl in Hn. unfold format_digits, parse_digits. cbn [fold_left]. unfold step_digit.
    rewrite digit_val_char by (apply Z.mod_pos_bound; lia).
    f_equal. rewrite Z.mod_small by lia. lia.
  - simpl format_digits. destruct (n <? 10) eqn:Hlt.
    + apply Z.ltb_lt in Hlt. unfold parse_digits. cbn [fold_left]. unfold step_digit.
      rewrite digit_val_char by lia. f_equal; lia.
    + apply Z.ltb_ge in Hlt.
      rewrite parse_digits_snoc, IH.
      * unfold step_digit. rewrite digit_val_char by (apply Z.mod_pos_bound; lia).
        f_equal. pose proof (Z.div_mod n 10). lia.
      * split; [apply Z.div_pos; lia|].
        apply Z.div_lt_upper_bound; [lia|].
        replace (Z.of_nat (S (S fuel))) with (1 + Z.of_nat (S fuel)) in Hn by lia.
        rewrite Z.pow_add_r in Hn by lia. lia.
Qed.

Lemma format_digits_nonempty (fuel : nat) (n : Z) : format_digits fuel n <> [].
Proof.
  destruct fuel; simpl; [discriminate|].
  destruct (n <? 10); [discriminate|].
  intros H. apply app_eq_nil in H. destruct H as [_ H]. discriminate.
Qed.

Lemma fold_step_none (l : list ascii) : fold_left step_digit l None = None.
Proof. induction l; simpl; auto. Qed.

Lemma fold_step_digits (l : list ascii) (a : Z) :
  Forall is_digit l ->
  fold_left step_digit l (Some a)
  = Some (fold_left (fun a c => a * 10 + (Z.of_nat (nat_of_ascii c) - 48)) l a).
Proof.
  revert a; induction l as [|c l IH]; intros a Hall; cbn [fold_left]; auto.
  inversion Hall as [|? ? Hc Hl]; subst.
  assert (Hs : step_digit (Some a) c = Some (a * 10 + (Z.of_nat (nat_of_ascii c) - 48))).
  { unfold step_digit, digit_val. unfold is_digit in Hc. destruct Hc as [H1 H2].
    apply Nat.leb_le in H1. apply Nat.leb_le in H2. now rewrite H1, H2. }
  rewrite Hs. now apply IH.
Qed.

Lemma fold_step_nondigit (l : list ascii) (a : Z) :
  ~ Forall is_digit l -> fold_left step_digit l (Some a) = None.
Proof.
  revert a; induction l as [|c l IH]; intros a Hnot; cbn [fold_left].
  - exfalso. apply Hnot. constructor.
  - destruct ((48 <=? nat_of_ascii c)%nat && (nat_of_ascii c <=? 57)%nat) eqn:Hd.
    + assert (Hs : step_digit (Some a) c = Some (a * 10 + (Z.of_nat (nat_of_ascii c) - 48)))
        by (unfold step_digit, digit_val; now rewrite Hd).
      apply andb_prop in Hd. destruct Hd as [H1 H2].
      apply Nat.leb_le in H1. apply Nat.leb_le in H2.
      rewrite Hs. apply IH. intros Hall. apply Hnot. constructor; [split; lia | exact Hall].
    + assert (Hs : step_digit (Some a) c = None)
        by (unfold step_digit, digit_val; now rewrite Hd).
      rewrite Hs. apply fold_step_none.
Qed.

Lemma classic_digits (l : list ascii) : {Forall is_digit l} + {~ Forall is_digit l}.
Proof.
  apply Forall_dec. intros c. unfold is_digit.
  destruct (le_dec 48 (nat_of_ascii c)), (le_dec (nat_of_ascii c) 57);
    [left; lia | right; lia | right; lia | right; lia].
Qed.

(** Claim C7: [ParseExpirationBlock] inverts the decimal formatting of every
    [uint64], and yields 0 on the empty string and on every string that is
    not a valid decimal [uint64]. *)
Theorem ParseExpirationBlock_roundtrip_default :
  (forall x : Z, is_u64 x -> ParseExpirationBlock (FormatUint x) = x)
  /\ ParseExpirationBlock "" = 0
  /\ (forall s : string, ~ valid_decimal_u64 s -> ParseExpirationBlock s = 0).
Proof.
  split; [|split].
  - intros x [Hx0 Hx1]. unfold ParseExpirationBlock, FormatUint, ParseUint.
    rewrite list_ascii_of_string_of_list_ascii.
    destruct (String.eqb (string_of_list_ascii (format_digits 20 x)) "") eqn:He.
    + apply String.eqb_eq in He.
      exfalso. apply (format_digits_nonempty 20 x).
      rewrite <- (list_ascii_of_string_of_list_ascii (format_digits 20 x)), He.
      reflexivity.
    + destruct (format_digits 20 x) eqn:Hf.
      * exfalso. now apply (format_digits_nonempty 20 x).
      * rewrite <- Hf, parse_format_digits.
        -- unfold two64 in *. now rewrite (proj2 (Z.ltb_lt x (2 ^ 64)) Hx1).
        -- unfold two64 in Hx1. split; [lia|]. simpl. lia.
  - reflexivity.
  - intros s Hinv. unfold ParseExpirationBlock.
    destruct (String.eqb s "") eqn:He; [reflexivity|].
    unfold ParseUint, parse_digits.
    destruct (list_ascii_of_string s) as [|c l] eqn:Hl; [reflexivity|].
    rewrite <- Hl.
    destruct (classic_digits (list_ascii_of_string s)) as [Hall | Hnot].
    + rewrite fold_step_digits by exact Hall.
      destruct (_ <? two64) eqn:Hlt; [|reflexivity].
      exfalso. apply Hinv. split; [rewrite Hl; discriminate|]. split; [exact Hall|].
      now apply Z.ltb_lt in Hlt.
    + now rewrite fold_step_nondigit.
Qed.

(** ** Message-hash normalisation *)

Lemma normalize_two_chars (a b : ascii) (r : string) :
  String.eqb (substring 0 2 (String a (String b r))) "0x"
  = String.prefix "0x" (String a (String b r)).
Proof.
  cbn [substring String.prefix String.eqb].
  destruct (ascii_dec "0" a) as [Ha|Ha]; [subst a|];
    [destruct (ascii_dec "x" b) as [Hb|Hb]; [subst b|] |].
  - destruct r; reflexivity.
  - destruct (Ascii.eqb_spec b "x"); [congruence|]. reflexivity.
  - destruct (Ascii.eqb_spec a "0"); [congruence|]. reflexivity.
Qed.

(** Claim C8, as stated (every length): refuted by the two-byte hash "ab",
    which comes back without the prefix. *)
Lemma normalizeMessageHash_short_counterexample :
  ~ (String.prefix "0x" "ab" = false -> normalizeMessageHash "ab" = "0x" ++ "ab").
Proof. intros H. specialize (H eq_refl). discriminate H. Qed.

(** Claim C8 (amended): [normalizeMessageHash h] is ["0x" ++ h] when [h] is
    longer than two bytes and does not start with "0x"; it is [h] when [h]
    starts with "0x" and when [h] has at most two bytes. *)
Theorem normalizeMessageHash_spec (h : string) :
  ((2 < String.length h)%nat -> String.prefix "0x" h = false
     -> normalizeMessageHash h = "0x" ++ h)
  /\ (String.prefix "0x" h = true -> normalizeMessageHash h = h)
  /\ ((String.length h <= 2)%nat -> normalizeMessageHash h = h).
Proof.
  unfold normalizeMessageHash.
  destruct h as [|a [|b r]]; cbn [String.length];
    [repeat split; intros; (reflexivity || lia) | repeat split; intros; (reflexivity || lia) |].
  rewrite normalize_two_chars.
  split; [|split].
  - intros Hlen Hp. rewrite Hp. apply Nat.ltb_lt in Hlen. now rewrite Hlen.
  - intros Hp. rewrite Hp. now rewrite andb_false_r.
  - intros Hlen. assert (Hl : (2 <? S (S (String.length r)))%nat = false)
      by (apply Nat.ltb_ge; lia).
    now rewrite Hl.
Qed.

(** ** Re-attestation decision and its application *)

Lemma add64_small (a b : Z) : 0 <= a -> 0 <= b -> a + b < two64 -> add64 a b = a + b.
Proof. intros. unfold add64. apply Z.mod_small. lia. Qed.

(** Claim C4: with no expiration block, or a current block plus buffer still
    below it, [HandleExpiringAttestation] answers [shouldReattest = false]
    with no error and no request, and applying that answer changes nothing. *)
Theorem HandleExpiringAttestation_not_expiring (svc : AttestationService) (now : Z)
    (m : MessageState) (cfg : CircleSettings) (b : Z) :
  is_u64 b -> is_u64 (ExpirationBufferBlocks cfg) -> is_u64 (ExpirationBlock m) ->
  (ExpirationBlock m = 0 \/ b + Z.max (ExpirationBufferBlocks cfg) 0 < ExpirationBlock m) ->
  let '(result, err, calls) := HandleExpiringAttestation svc m cfg b in
  ShouldReattest result = false /\ err = None /\ calls = []
  /\ ApplyReattestResult now m result = m.
Proof.
  intros Hb Hbuf Hexp Hnot. unfold HandleExpiringAttestation.
  destruct (ExpirationBlock m =? 0) eqn:H0; [repeat split; reflexivity|].
  apply Z.eqb_neq in H0. destruct Hnot as [Hnot | Hlt]; [contradiction|].
  unfold is_u64 in *. rewrite Z.max_l in Hlt by lia.
  rewrite add64_small by lia.
  apply Z.ltb_lt in Hlt. rewrite Hlt. repeat split; reflexivity.
Qed.

Lemma prefix_contains (sub s : string) : String.prefix sub s = true -> str_contains sub s = true.
Proof. intros H. destruct s; unfold str_contains; fold str_contains; rewrite H; reflexivity. Qed.

(** Claim C5: an expiring message whose count has reached the (defaulted)
    maximum gets [exhaustedRetries = true] and an error mentioning
    "max re-attestation attempts reached", with no HTTP request; applying
    the answer marks it [Failed] and stamps [Updated] with the current time. *)
Theorem HandleExpiringAttestation_exhausted (svc : AttestationService) (now : Z)
    (m : MessageState) (cfg : CircleSettings) (b : Z) :
  ShouldReattest (fst (fst (HandleExpiringAttestation svc m cfg b))) = true ->
  maxRetriesOf cfg <= ReattestCount m ->
  let '(result, err, calls) := HandleExpiringAttestation svc m cfg b in
  ExhaustedRetries result = true
  /\ (exists e, err = Some e /\ str_contains "max re-attestation attempts reached" e = true)
  /\ calls = []
  /\ Status (ApplyReattestResult now m result) = Failed
  /\ Updated (ApplyReattestResult now m result) = now
  /\ LastReattestTime (ApplyReattestResult now m result) = now.
Proof.
  intros Hs Hmax. unfold HandleExpiringAttestation in *.
  destruct (ExpirationBlock m =? 0); [discriminate|].
  destruct (add64 b (ExpirationBufferBlocks cfg) <? ExpirationBlock m); [discriminate|].
  apply Z.leb_le in Hmax. rewrite Hmax.
  repeat split; try reflexivity.
  eexists; split; [reflexivity|]. apply prefix_contains. reflexivity.
Qed.

(** Claim C10: [ApplyReattestResult] writes only [reattestCount],
    [lastReattestTime], [status] (to [Failed], on exhausted retries),
    [attestation] (when a new one is given), [updated] and [expirationBlock]
    (when a positive one is given), and nothing when [shouldReattest] is false. *)
Theorem ApplyReattestResult_frame (now : Z) (m : MessageState) (r : ReattestResult) :
  let m' := ApplyReattestResult now m r in
  IrisLookupID m' = IrisLookupID m /\ SourceDomain m' = SourceDomain m
  /\ DestDomain m' = DestDomain m /\ SourceTxHash m' = SourceTxHash m
  /\ DestTxHash m' = DestTxHash m /\ DestinationCaller m' = DestinationCaller m
  /\ Nonce m' = Nonce m /\ CctpVersion m' = CctpVersion m
  /\ (Status m' = Status m \/ (Status m' = Failed /\ ExhaustedRetries r = true))
  /\ (Attestation m' = Attestation m
      \/ (NewAttestation r <> "" /\ Attestation m' = NewAttestation r))
  /\ (ExpirationBlock m' = ExpirationBlock m
      \/ (0 < NewExpirationBlock r /\ ExpirationBlock m' = NewExpirationBlock r))
  /\ (ShouldReattest r = false -> m' = m).
Proof.
  unfold ApplyReattestResult.
  destruct (ShouldReattest r) eqn:Hs; cbn [negb].
  2: { repeat split; auto. }
  destruct (ExhaustedRetries r) eqn:He.
  { cbn. repeat split; auto; discriminate. }
  destruct (String.eqb (NewAttestation r) "") eqn:Ha; cbn [negb];
    destruct (0 <? NewExpirationBlock r) eqn:Hx; cbn;
    repeat split; auto; try discriminate;
    try (right; split; [apply Z.ltb_lt; exact Hx | reflexivity]);
    try (right; split; [apply String.eqb_neq; exact Ha | reflexivity]).
Qed.

(** ** Filter registry *)

Lemma registry_filter_first_match (msg : MessageState) (fs1 fs2 : list MessageFilter)
    (f : MessageFilter) (r : string) :
  Forall (fun g => filter_matches g msg = false) fs1 ->
  FilterFn f msg = (true, r, None) ->
  registry_filter_run (app fs1 (f :: fs2)) msg = (true, r, S (length fs1)).
Proof.
  intros Hpre Hf. induction Hpre as [|g fs1 Hg Hpre IH]; cbn [app registry_filter_run].
  - now rewrite Hf.
  - rewrite IH. unfold filter_matches in Hg.
    destruct (FilterFn g msg) as [[[|] rg] [eg|]]; try discriminate; reflexivity.
Qed.

Lemma registry_filter_none (msg : MessageState) (fs : list MessageFilter) :
  fst (FilterRegistry_Filter fs msg) = false
  <-> Forall (fun g => filter_matches g msg = false) fs.
Proof.
  unfold FilterRegistry_Filter.
  induction fs as [|g fs IH]; cbn [registry_filter_run].
  - split; [constructor | reflexivity].
  - destruct (registry_filter_run fs msg) as [[b0 r0] n0] eqn:Hrun.
    rewrite Forall_cons_iff, <- IH. unfold filter_matches at 1.
    destruct (FilterFn g msg) as [[[|] rg] [eg|]]; cbn [fst];
      split; intros H; try split; try tauto; try discriminate; apply H.
Qed.

(** Claim C9: the registry runs the filters in order and stops at the first
    one that answers [drop = true] without an error, returning its reason
    after exactly as many calls as that filter's position (later filters are
    never called); a filter answering an error counts as not matching; and
    [drop = false] comes back exactly when no filter matched without error. *)
Theorem FilterRegistry_Filter_spec (msg : MessageState) :
  (forall fs1 f fs2 r,
     Forall (fun g => filter_matches g msg = false) fs1 ->
     FilterFn f msg = (true, r, None) ->
     registry_filter_run (app fs1 (f :: fs2)) msg = (true, r, S (length fs1))
     /\ FilterRegistry_Filter (app fs1 (f :: fs2)) msg = (true, r))
  /\ (forall fs, fst (FilterRegistry_Filter fs msg) = false
                 <-> Forall (fun g => filter_matches g msg = false) fs).
Proof.
  split.
  - intros fs1 f fs2 r Hpre Hf.
    pose proof (registry_filter_first_match msg fs1 fs2 f r Hpre Hf) as Hrun.
    split; [exact Hrun|]. unfold FilterRegistry_Filter. now rewrite Hrun.
  - intros fs. apply registry_filter_none.
Qed.

(** ** Destination-caller filter *)

(** Solana treats the 32 zero bytes as the permissionless caller. *)
Lemma Solana_IsDestinationCaller_zero decode hexEncode minter :
  Solana_IsDestinationCaller decode hexEncode minter zeroByteArr = (true, "").
Proof. reflexivity. Qed.

(** Claim C3 (code defect): with [destinationCallerOnly] set, the
    permissionless (all-zero) caller is still passed through, because the
    valid-caller early return precedes the mode check: for every chain
    that accepts the zero caller, as Solana does, the filter answers
    [drop = false] in both modes. *)
Theorem DestinationCallerFilter_zero_caller_passes (domains : list (Z * Chain))
    (chain : Chain) (onlyMode : bool) (msg : MessageState) :
  lookup_domain (DestDomain msg) domains = Some chain ->
  DestinationCaller msg = zeroByteArr ->
  IsDestinationCaller chain zeroByteArr = (true, "") ->
  DestinationCallerFilter_Filter domains onlyMode msg = (false, "", None).
Proof.
  intros Hl Hc Hz. unfold DestinationCallerFilter_Filter.
  now rewrite Hl, Hc, Hz.
Qed.

(** The same at the concrete failing input: a Solana destination on domain
    5, the zero caller, [destinationCallerOnly = true]. *)
Lemma DestinationCallerFilter_zero_caller_witness :
  lookup_domain 5 [(5, sample_solana)] = Some sample_solana
  /\ DestinationCallerFilter_Filter [(5, sample_solana)] true
       (mkMsg "abc" Created "" 0 5 "0xtx" "" zeroByteArr 0 7 "" 0 0 0) = (false, "", None).
Proof.
  split; [reflexivity|].
  apply (DestinationCallerFilter_zero_caller_passes [(5, sample_solana)] sample_solana true);
    reflexivity.
Defined.

(** ** Re-attestation budget *)

(** Claim C1, as stated: refuted by scenario S5 (three attempts already made,
    [reattestMaxRetries = 3]): applying the exhausted answer leaves
    [reattestCount = 4 > max(3, 3)]. *)
Lemma reattestCount_bound_counterexample :
  ~ (ReattestCount
       (ApplyReattestResult 1 (set_ReattestCount 3 sample_msg)
          (fst (fst (HandleExpiringAttestation sample_svc (set_ReattestCount 3 sample_msg)
                       sample_cfg 920))))
     <= Z.max (ReattestMaxRetries sample_cfg) 3).
Proof. intros H. vm_compute in H. apply H. reflexivity. Qed.

(** ** Requeueing in the worker loop *)

Section AbsentAttestation.

Variable cfg : CircleSettings.
Variable envs : nat -> Env.
Hypothesis absent : forall k m, svc_check (env_svc (envs k)) m = None.
Hypothesis no_drop :
  forall k fs m, env_filters (envs k) = Some fs -> fst (FilterRegistry_Filter fs m) = false.



Variable tx : TxState.
Hypothesis tx_nonempty : Msgs tx <> [].







End AbsentAttestation.


(** ** Structure of one worker pass *)

Lemma nth_error_upd {A} (l : list A) (i j : nat) (f : A -> A) :
  nth_error (upd l i f) j
  = if Nat.eqb i j then option_map f (nth_error l j) else nth_error l j.
Proof.
  revert i j; induction l as [|x l IH]; intros [|i] [|j]; cbn; rewrite ?IH;
    try destruct (nth_error l j); try destruct (Nat.eqb i j); reflexivity.
Qed.

Lemma nth_error_upd_other {A} (l : list A) (i j : nat) (f : A -> A) :
  i <> j -> nth_error (upd l i f) j = nth_error l j.
Proof. intros H. rewrite nth_error_upd. apply Nat.eqb_neq in H. now rewrite H. Qed.

Definition msgs_at (l : list TxState) (t : nat) : option (list MessageState) :=
  option_map Msgs (nth_error l t).

Lemma msgs_at_upd_other (l : list TxState) (i t : nat) (f : TxState -> TxState) :
  i <> t -> msgs_at (upd l i f) t = msgs_at l t.
Proof. intros H. unfold msgs_at. now rewrite nth_error_upd_other. Qed.

Lemma msgs_at_upd_retry (l : list TxState) (i t : nat) :
  msgs_at (upd l i (fun d => set_RetryAttempt (RetryAttempt d + 1) d)) t = msgs_at l t.
Proof.
  unfold msgs_at. rewrite nth_error_upd.
  destruct (Nat.eqb i t); [|reflexivity]. now destruct (nth_error l t).
Qed.

Lemma msgs_at_upd_same (l : list TxState) (t : nat) (tx : TxState) (ms : list MessageState) :
  nth_error l t = Some tx -> msgs_at (upd l t (set_Msgs ms)) t = Some ms.
Proof. intros H. unfold msgs_at. rewrite nth_error_upd, Nat.eqb_refl, H. reflexivity. Qed.

(** The messages a pass leaves on the TxState it processes. *)
Definition pass_msgs (env : Env) (cfg : CircleSettings) (ms : list MessageState)
    : list MessageState :=
  let '(ms1, bq, rq1) := process_msgs env cfg O ms [] false in
  fst (broadcast_all env bq ms1 rq1).

(** A pass either processes the stored TxState [t] or leaves its messages. *)
Lemma worker_pass_stored (cfg : CircleSettings) (env : Env) (w w' : World) (t : nat)
    (tx : TxState) :
  nth_error (heap w) t = Some tx ->
  lookup_store (TxHash tx) (store w) = Some t ->
  worker_pass cfg env w = Some w' ->
  msgs_at (heap w') t = Some (Msgs tx)
  \/ msgs_at (heap w') t = Some (pass_msgs env cfg (Msgs tx)).
Proof.
  intros Ht Hs Hpass. unfold worker_pass in Hpass.
  destruct (queue w) as [|p rest]; [discriminate|].
  destruct (nth_error (heap w) p) as [dtx|] eqn:Hp; [|discriminate].
  assert (Htail : forall store1 heap1 t0,
             nth_error heap1 t = Some tx -> (t0 = t -> heap1 = heap w) ->
             process_stored cfg env store1 heap1 t0 p rest = Some w' ->
             msgs_at (heap w') t = Some (Msgs tx)
             \/ msgs_at (heap w') t = Some (pass_msgs env cfg (Msgs tx))).
  { clear Hpass. intros store1 heap1 t0 Ht1 Ht0 Hpass. unfold process_stored in Hpass.
    destruct (nth_error heap1 t0) as [tx0|] eqn:Htx0; [|discriminate].
    destruct (process_msgs env cfg O (Msgs tx0) [] false) as [[ms1 bq] rq1] eqn:Hproc.
    destruct (broadcast_all env bq ms1 rq1) as [ms2 requeue] eqn:Hbc.
    assert (Hheap2 : msgs_at (upd heap1 t0 (set_Msgs ms2)) t = Some (Msgs tx)
                     \/ msgs_at (upd heap1 t0 (set_Msgs ms2)) t
                        = Some (pass_msgs env cfg (Msgs tx))).
    { destruct (Nat.eq_dec t0 t) as [->|Hne].
      - right. rewrite Ht1 in Htx0. injection Htx0 as <-.
        rewrite (msgs_at_upd_same _ _ tx) by exact Ht1.
        unfold pass_msgs. now rewrite Hproc, Hbc.
      - left. rewrite msgs_at_upd_other by exact Hne. unfold msgs_at. now rewrite Ht1. }
    destruct requeue.
    - destruct (nth_error (upd heap1 t0 (set_Msgs ms2)) p) as [d|];
        [|injection Hpass as <-; exact Hheap2].
      destruct (RetryAttempt d <? FetchRetries cfg); injection Hpass as <-; cbn [heap];
        rewrite ?msgs_at_upd_retry; exact Hheap2.
    - injection Hpass as <-. exact Hheap2. }
  destruct (lookup_store (TxHash dtx) (store w)) as [t1|] eqn:Hl.
  - eapply Htail; [exact Ht | reflexivity | exact Hpass].
  - assert (Hpt : p <> t).
    { intros ->. rewrite Hp in Ht. injection Ht as ->. congruence. }
    eapply Htail; [| | exact Hpass].
    + now rewrite nth_error_upd_other.
    + intros; contradiction.
Qed.

(** ** The message loop and the broadcast step *)

Definition bq_indices (bq : BroadcastQueue) : list nat := flat_map snd bq.

Definition awaiting (s : string) : Prop := s = Created \/ s = Pending.

Lemma bq_append_indices (d : Z) (i k : nat) (bq : BroadcastQueue) :
  In k (bq_indices (bq_append d i bq)) -> k = i \/ In k (bq_indices bq).
Proof.
  unfold bq_indices. induction bq as [|[d0 l] bq IH]; cbn [bq_append flat_map snd].
  - intros H. cbn in H. destruct H as [H|[]]; subst; auto.
  - destruct (d0 =? d); cbn [flat_map snd]; intros H; repeat rewrite in_app_iff in *.
    + destruct H as [[H|[H|[]]]|H]; subst; auto.
    + destruct H as [H|H]; auto. destruct (IH H); auto.
Qed.

Lemma remove_indices (bq : BroadcastQueue) (d : Z) (i k : nat) :
  In k (bq_indices (RemoveMessageFromQueue bq d i)) -> In k (bq_indices bq).
Proof.
  unfold bq_indices. induction bq as [|[d0 l] bq IH]; cbn [RemoveMessageFromQueue]; auto.
  destruct (d0 =? d).
  - destruct (filter (fun j => negb (Nat.eqb j i)) l) as [|x l'] eqn:Hf;
      intros H; cbn [flat_map snd] in *; apply in_app_iff.
    + right. exact H.
    + apply in_app_iff in H. destruct H as [H|H]; [left | right; exact H].
      rewrite <- Hf in H. apply filter_In in H. exact (proj1 H).
  - intros H. cbn [flat_map snd] in *. apply in_app_iff in H. apply in_app_iff.
    destruct H as [H|H]; auto.
Qed.

Lemma expiry_step_indices env cfg i m bq rq k :
  In k (bq_indices (snd (fst (expiry_step env cfg i m bq rq)))) -> In k (bq_indices bq).
Proof.
  unfold expiry_step.
  destruct (APIVersionV2 cfg && String.eqb (Status m) Attested && (0 <? ExpirationBlock m));
    auto.
  destruct (lookup_domain (DestDomain m) (env_domains env)) as [c|]; auto.
  destruct (HandleExpiringAttestation (env_svc env) m cfg (LatestBlock c)) as [[r e] cs].
  destruct (RemoveFromQueue r); cbn [fst snd]; [apply remove_indices | auto].
Qed.

Lemma process_msg_indices env cfg i m bq rq k :
  In k (bq_indices (snd (fst (process_msg env cfg i m bq rq)))) ->
  In k (bq_indices bq) \/ (k = i /\ awaiting (Status (filter_step env m))).
Proof.
  unfold process_msg. set (m1 := filter_step env m).
  destruct (String.eqb (Status m1) Created) eqn:Hc;
    destruct (String.eqb (Status m1) Pending) eqn:Hp; cbn [orb];
    try (intros H; left; exact (expiry_step_indices _ _ _ _ _ _ _ H)).
  all: assert (Haw : awaiting (Status m1))
         by (unfold awaiting; apply String.eqb_eq in Hc || apply String.eqb_eq in Hp; auto).
  all: destruct (svc_check (env_svc env) m1) as [resp|]; [|cbn; auto].
  all: destruct (String.eqb (Status m1) Created && String.eqb (RespStatus resp) "pending_confirmations");
         [cbn; auto|].
  all: destruct (String.eqb (RespStatus resp) "pending_confirmations"); [cbn; auto|].
  all: destruct (String.eqb (RespStatus resp) "complete");
         [|intros H; left; exact (expiry_step_indices _ _ _ _ _ _ _ H)].
  all: intros H; apply expiry_step_indices, bq_append_indices in H.
  all: destruct H as [H|H]; auto.
Qed.

Lemma process_msgs_indices env cfg (ms : list MessageState) :
  forall i bq rq k,
  In k (bq_indices (snd (fst (process_msgs env cfg i ms bq rq)))) ->
  In k (bq_indices bq)
  \/ (exists m, (i <= k)%nat /\ nth_error ms (k - i) = Some m
                /\ awaiting (Status (filter_step env m))).
Proof.
  induction ms as [|m ms IH]; intros i bq rq k; cbn [process_msgs]; [auto|].
  destruct (process_msg env cfg i m bq rq) as [[m' bq1] rq1] eqn:H1.
  destruct (process_msgs env cfg (S i) ms bq1 rq1) as [[ms'' bq2] rq2] eqn:H2.
  cbn [fst snd]. intros Hin.
  pose proof (IH (S i) bq1 rq1 k) as IHk. rewrite H2 in IHk. cbn [fst snd] in IHk.
  destruct (IHk Hin) as [Hb|[m0 [Hle [Hn Ha]]]].
  - pose proof (process_msg_indices env cfg i m bq rq k) as Hm. rewrite H1 in Hm.
    destruct (Hm Hb) as [Hb'|[-> Ha]]; [auto|].
    right. exists m. rewrite Nat.sub_diag. auto.
  - right. exists m0. split; [lia|]. split; [|exact Ha].
    replace (k - i)%nat with (S (k - S i)) by lia. exact Hn.
Qed.

Lemma process_msgs_nth env cfg (ms : list MessageState) :
  forall i bq rq j m,
  nth_error ms j = Some m ->
  exists bq' rq', nth_error (fst (fst (process_msgs env cfg i ms bq rq))) j
                  = Some (fst (fst (process_msg env cfg (i + j) m bq' rq'))).
Proof.
  induction ms as [|m0 ms IH]; intros i bq rq j m Hj; [destruct j; discriminate|].
  cbn [process_msgs].
  destruct (process_msg env cfg i m0 bq rq) as [[m' bq1] rq1] eqn:H1.
  destruct (process_msgs env cfg (S i) ms bq1 rq1) as [[ms'' bq2] rq2] eqn:H2.
  destruct j as [|j]; cbn in Hj |- *.
  - injection Hj as <-. exists bq, rq. now rewrite Nat.add_0_r, H1.
  - destruct (IH (S i) bq1 rq1 j m Hj) as [bq' [rq' Hn]].
    rewrite H2 in Hn. cbn [fst] in Hn. exists bq', rq'. rewrite Hn.
    now replace (i + S j)%nat with (S i + j)%nat by lia.
Qed.

Lemma process_msgs_forall env cfg (P Q : MessageState -> Prop) :
  (forall i m bq rq, P m -> Q (fst (fst (process_msg env cfg i m bq rq)))) ->
  forall ms i bq rq, Forall P ms -> Forall Q (fst (fst (process_msgs env cfg i ms bq rq))).
Proof.
  intros HPQ ms. induction ms as [|m ms IH]; intros i bq rq Hall; cbn [process_msgs].
  - constructor.
  - inversion Hall as [|? ? Hm Hms]; subst.
    pose proof (HPQ i m bq rq Hm) as Hq.
    destruct (process_msg env cfg i m bq rq) as [[m' bq1] rq1].
    pose proof (IH (S i) bq1 rq1 Hms) as Hr.
    destruct (process_msgs env cfg (S i) ms bq1 rq1) as [[ms'' bq2] rq2].
    constructor; assumption.
Qed.

Lemma write_back_other (idxs : list nat) :
  forall sigs ms j, ~ In j idxs -> nth_error (write_back idxs sigs ms) j = nth_error ms j.
Proof.
  induction idxs as [|i idxs IH]; intros sigs ms j Hj; [destruct sigs; reflexivity|].
  destruct sigs as [|[sig|] sigs]; cbn [write_back]; [reflexivity| |];
    rewrite IH by (intros H; apply Hj; now right); [|reflexivity].
  apply nth_error_upd_other. intros ->. apply Hj. now left.
Qed.

Lemma mark_complete_other (now : Z) (idxs : list nat) :
  forall ms j, ~ In j idxs -> nth_error (mark_complete now idxs ms) j = nth_error ms j.
Proof.
  unfold mark_complete.
  induction idxs as [|i idxs IH]; intros ms j Hj; cbn [fold_left]; [reflexivity|].
  rewrite IH by (intros H; apply Hj; now right).
  apply nth_error_upd_other. intros ->. apply Hj. now left.
Qed.

Lemma broadcast_all_other (env : Env) (bq : BroadcastQueue) :
  forall ms rq j, ~ In j (bq_indices bq) ->
  nth_error (fst (broadcast_all env bq ms rq)) j = nth_error ms j.
Proof.
  unfold bq_indices.
  induction bq as [|[d idxs] bq IH]; intros ms rq j Hj; cbn [broadcast_all]; [reflexivity|].
  cbn [flat_map snd] in Hj. rewrite in_app_iff in Hj.
  destruct (lookup_domain d (env_domains env)) as [c|]; [|apply IH; tauto].
  destruct (ChainBroadcast c _) as [sigs ok].
  destruct ok; rewrite IH by tauto;
    rewrite ?mark_complete_other by tauto; apply write_back_other; tauto.
Qed.

(** ** Terminal messages in the message loop *)

Lemma terminal_not_attested (s : string) : is_terminal s -> String.eqb s Attested = false.
Proof. intros [-> | [-> | ->]]; reflexivity. Qed.

Lemma terminal_not_awaiting (s : string) : is_terminal s -> ~ awaiting s.
Proof. intros [-> | [-> | ->]] [H|H]; discriminate. Qed.

Lemma filter_step_cases (env : Env) (m : MessageState) :
  filter_step env m = m
  \/ (filter_step env m = set_Status Filtered m
      /\ exists fs, env_filters env = Some fs /\ fst (FilterRegistry_Filter fs m) = true).
Proof.
  unfold filter_step. destruct (env_filters env) as [fs|]; [|auto].
  destruct (fst (FilterRegistry_Filter fs m)) eqn:Hd; [right; eauto | auto].
Qed.

Lemma filter_step_terminal (env : Env) (m : MessageState) :
  is_terminal (Status m) -> is_terminal (Status (filter_step env m)).
Proof.
  intros Ht. destruct (filter_step_cases env m) as [-> | [-> _]]; [exact Ht|].
  right; right; reflexivity.
Qed.

Lemma expiry_step_idle env cfg i m bq rq :
  String.eqb (Status m) Attested = false -> expiry_step env cfg i m bq rq = (m, bq, rq).
Proof. intros H. unfold expiry_step. now rewrite H, andb_false_r, andb_false_l. Qed.

Lemma process_msg_terminal env cfg i m bq rq :
  is_terminal (Status m) -> fst (fst (process_msg env cfg i m bq rq)) = filter_step env m.
Proof.
  intros Ht. pose proof (filter_step_terminal env m Ht) as Ht1.
  unfold process_msg.
  assert (Hc : String.eqb (Status (filter_step env m)) Created = false)
    by (destruct Ht1 as [-> | [-> | ->]]; reflexivity).
  assert (Hp : String.eqb (Status (filter_step env m)) Pending = false)
    by (destruct Ht1 as [-> | [-> | ->]]; reflexivity).
  rewrite Hc, Hp. cbn [orb].
  now rewrite expiry_step_idle by (now apply terminal_not_attested).
Qed.

Lemma pass_msgs_terminal (env : Env) (cfg : CircleSettings) (ms : list MessageState)
    (j : nat) (m : MessageState) :
  nth_error ms j = Some m -> is_terminal (Status m) ->
  nth_error (pass_msgs env cfg ms) j = Some (filter_step env m).
Proof.
  intros Hj Ht. unfold pass_msgs.
  pose proof (process_msgs_nth env cfg ms O [] false j m Hj) as [bq' [rq' Hn]].
  pose proof (process_msgs_indices env cfg ms O [] false j) as Hidx.
  destruct (process_msgs env cfg O ms [] false) as [[ms1 bq] rq1].
  cbn [fst snd] in Hn, Hidx.
  rewrite broadcast_all_other.
  - rewrite Hn. f_equal. now apply process_msg_terminal.
  - intros Hin. destruct (Hidx Hin) as [[]|[m0 [_ [Hm0 Haw]]]].
    rewrite Nat.sub_0_r, Hj in Hm0. injection Hm0 as <-.
    exact (terminal_not_awaiting _ (filter_step_terminal env m Ht) Haw).
Qed.

(** Claim C2 (amended): in any later pass over a stored TxState, a message
    already at a terminal status ([Complete], [Failed], [Filtered]) is left
    as it is, except that the filter stage, which runs on every message, sets
    it to [Filtered] when the filter registry drops it; the attestation,
    re-attestation and broadcast stages never touch it. *)
Theorem worker_pass_terminal (cfg : CircleSettings) (env : Env) (w w' : World) (t : nat)
    (tx : TxState) (j : nat) (m : MessageState) :
  nth_error (heap w) t = Some tx ->
  lookup_store (TxHash tx) (store w) = Some t ->
  nth_error (Msgs tx) j = Some m ->
  is_terminal (Status m) ->
  worker_pass cfg env w = Some w' ->
  exists tx' m', nth_error (heap w') t = Some tx' /\ nth_error (Msgs tx') j = Some m'
  /\ (m' = m
      \/ (m' = set_Status Filtered m
          /\ exists fs, env_filters env = Some fs /\ fst (FilterRegistry_Filter fs m) = true)).
Proof.
  intros Ht Hs Hj Hterm Hpass.
  pose proof (worker_pass_stored cfg env w w' t tx Ht Hs Hpass) as Hcases.
  unfold msgs_at in Hcases.
  destruct (nth_error (heap w') t) as [tx'|]; [|destruct Hcases as [H|H]; discriminate].
  exists tx'. cbn [option_map] in Hcases.
  destruct Hcases as [H|H]; injection H as H.
  - exists m. rewrite H. auto.
  - exists (filter_step env m). rewrite H. split; [reflexivity|]. split.
    + now apply pass_msgs_terminal.
    + apply filter_step_cases.
Qed.

(** Claim C2, as stated: refuted. A stored transaction whose message is
    already [Complete] is dequeued again while a filter now drops it; the
    pass sets the message to [Filtered]. *)
Lemma worker_pass_terminal_counterexample :
  ~ (forall w', worker_pass sample_cfg drop_all_env completed_world = Some w' ->
       option_map (fun tx => map Status (Msgs tx)) (nth_error (heap w') O) = Some [Complete]).
Proof. intros H. specialize (H _ eq_refl). vm_compute in H. discriminate H. Qed.

Lemma worker_pass_terminal_witness :
  exists tx' m',
    nth_error (heap (mkWorld [("1", O)]
                       [mkTx "1" [set_Status Filtered (set_Status Complete sample_msg)] 0] []))
      O = Some tx'
    /\ nth_error (Msgs tx') O = Some m'
    /\ (m' = set_Status Complete sample_msg
        \/ (m' = set_Status Filtered (set_Status Complete sample_msg)
            /\ exists fs, env_filters drop_all_env = Some fs
                 /\ fst (FilterRegistry_Filter fs (set_Status Complete sample_msg)) = true)).
Proof.
  apply (worker_pass_terminal sample_cfg drop_all_env completed_world _ O
           (mkTx "1" [set_Status Complete sample_msg] 0) O (set_Status Complete sample_msg));
    try reflexivity.
  - left; reflexivity.
Defined.

(** ** The re-attestation budget across a pass *)

Lemma add64_succ_le (c : Z) : 0 <= c -> 0 <= add64 c 1 <= c + 1.
Proof.
  intros Hc. unfold add64, two64. split.
  - apply Z.mod_pos_bound. lia.
  - apply Z.mod_le; lia.
Qed.

Lemma not_terminal_created : ~ is_terminal Created.
Proof. intros [H | [H | H]]; discriminate. Qed.

Lemma not_terminal_pending : ~ is_terminal Pending.
Proof. intros [H | [H | H]]; discriminate. Qed.

Lemma not_terminal_attested : ~ is_terminal Attested.
Proof. intros [H | [H | H]]; discriminate. Qed.

Lemma budget_nonterminal (cfg : CircleSettings) (m : MessageState) :
  reattest_budget cfg m -> ~ is_terminal (Status m) -> 0 <= ReattestCount m <= maxRetriesOf cfg.
Proof. unfold reattest_budget. intros [H0 [H | [_ H]]] Hn; [lia | contradiction]. Qed.

Lemma budget_within (cfg : CircleSettings) (m : MessageState) :
  0 <= ReattestCount m <= maxRetriesOf cfg -> reattest_budget cfg m.
Proof. unfold reattest_budget. intros H. split; [lia | left; lia]. Qed.

Lemma budget_terminal (cfg : CircleSettings) (m m' : MessageState) :
  ReattestCount m' = ReattestCount m -> is_terminal (Status m') ->
  reattest_budget cfg m -> reattest_budget cfg m'.
Proof.
  unfold reattest_budget. intros Hc Ht [H0 [H | [H _]]]; rewrite Hc; split; auto.
Qed.

Lemma ApplyReattestResult_count (now : Z) (m : MessageState) (r : ReattestResult) :
  ShouldReattest r = true ->
  ReattestCount (ApplyReattestResult now m r) = add64 (ReattestCount m) 1
  /\ (ExhaustedRetries r = true -> Status (ApplyReattestResult now m r) = Failed)
  /\ (ExhaustedRetries r = false -> Status (ApplyReattestResult now m r) = Status m).
Proof.
  intros Hs. unfold ApplyReattestResult. rewrite Hs. cbn [negb].
  destruct (ExhaustedRetries r); [split; [reflexivity | split; [reflexivity | discriminate]]|].
  destruct (negb (String.eqb (NewAttestation r) "")), (0 <? NewExpirationBlock r);
    (split; [reflexivity | split; [discriminate | reflexivity]]).
Qed.

(** One expiration check and its application: a count within the limit
    ends at most one above it, and above the limit only as [Failed]. *)
Lemma apply_handle_budget (svc : AttestationService) (now : Z) (m : MessageState)
    (cfg : CircleSettings) (b : Z) :
  0 <= ReattestCount m <= maxRetriesOf cfg ->
  reattest_budget cfg
    (ApplyReattestResult now m (fst (fst (HandleExpiringAttestation svc m cfg b)))).
Proof.
  intros Hc.
  assert (Hid : forall r, ShouldReattest r = false -> ApplyReattestResult now m r = m)
    by (intros r Hr; unfold ApplyReattestResult; now rewrite Hr).
  pose proof (add64_succ_le (ReattestCount m) (proj1 Hc)) as Ha.
  unfold HandleExpiringAttestation.
  destruct (ExpirationBlock m =? 0); [cbn [fst]; rewrite Hid by reflexivity; now apply budget_within|].
  destruct (add64 b (ExpirationBufferBlocks cfg) <? ExpirationBlock m);
    [cbn [fst]; rewrite Hid by reflexivity; now apply budget_within|].
  destruct (maxRetriesOf cfg <=? ReattestCount m) eqn:Hle.
  - apply Z.leb_le in Hle. cbn [fst].
    destruct (ApplyReattestResult_count now m (mkResult true "" 0 true false) eq_refl)
      as [Hn [Hf _]].
    unfold reattest_budget. rewrite Hn, (Hf eq_refl).
    split; [lia|].
    destruct (Z.le_gt_cases (add64 (ReattestCount m) 1) (maxRetriesOf cfg)); [left; lia|].
    right. split; [lia | right; left; reflexivity].
  - apply Z.leb_gt in Hle.
    assert (Hk : forall r, ShouldReattest r = true ->
              reattest_budget cfg (ApplyReattestResult now m r)).
    { intros r Hr. apply budget_within.
      rewrite (proj1 (ApplyReattestResult_count now m r Hr)). lia. }
    destruct (svc_reattest svc (SourceDomain m) (Nonce m));
      [|destruct (svc_v2_message svc (SourceTxHash m) (SourceDomain m))];
      cbn [fst]; apply Hk; reflexivity.
Qed.

Lemma expiry_step_budget env cfg i m bq rq :
  reattest_budget cfg m -> reattest_budget cfg (fst (fst (expiry_step env cfg i m bq rq))).
Proof.
  intros Hb. unfold expiry_step.
  destruct (APIVersionV2 cfg && String.eqb (Status m) Attested && (0 <? ExpirationBlock m))
    eqn:Hc; [|exact Hb].
  apply andb_true_iff in Hc as [Hc _]. apply andb_true_iff in Hc as [_ Hc].
  apply String.eqb_eq in Hc.
  assert (Hw : 0 <= ReattestCount m <= maxRetriesOf cfg).
  { apply budget_nonterminal; [exact Hb|]. rewrite Hc. exact not_terminal_attested. }
  destruct (lookup_domain (DestDomain m) (env_domains env)) as [c|]; [|exact Hb].
  pose proof (apply_handle_budget (env_svc env) (env_now env) m cfg (LatestBlock c) Hw) as H.
  destruct (HandleExpiringAttestation (env_svc env) m cfg (LatestBlock c)) as [[r e] calls].
  cbn [fst] in H. destruct (RemoveFromQueue r); exact H.
Qed.

Lemma filter_step_budget env cfg m :
  reattest_budget cfg m -> reattest_budget cfg (filter_step env m).
Proof.
  intros Hb. destruct (filter_step_cases env m) as [-> | [-> _]]; [exact Hb|].
  apply (budget_terminal cfg m); [reflexivity | right; right; reflexivity | exact Hb].
Qed.

Lemma process_msg_budget env cfg i m0 bq rq :
  reattest_budget cfg m0 -> reattest_budget cfg (fst (fst (process_msg env cfg i m0 bq rq))).
Proof.
  intros Hb0. pose proof (filter_step_budget env cfg m0 Hb0) as Hb.
  unfold process_msg. set (m := filter_step env m0) in *.
  destruct (String.eqb (Status m) Created || String.eqb (Status m) Pending) eqn:Hcp;
    [|now apply expiry_step_budget].
  assert (Hw : 0 <= ReattestCount m <= maxRetriesOf cfg).
  { apply budget_nonterminal; [exact Hb|].
    apply orb_true_iff in Hcp as [H | H]; apply String.eqb_eq in H; rewrite H;
      [exact not_terminal_created | exact not_terminal_pending]. }
  destruct (svc_check (env_svc env) m) as [resp|]; [|exact Hb].
  destruct (String.eqb (Status m) Created && String.eqb (RespStatus resp) "pending_confirmations");
    [apply budget_within; exact Hw|].
  destruct (String.eqb (RespStatus resp) "pending_confirmations"); [exact Hb|].
  destruct (String.eqb (RespStatus resp) "complete"); [|now apply expiry_step_budget].
  apply expiry_step_budget. apply budget_within.
  destruct (APIVersionV2 cfg);
    [destruct (svc_v2_message (env_svc env) _ _)|]; exact Hw.
Qed.

Lemma upd_Forall {A} (P : A -> Prop) (f : A -> A) :
  (forall x, P x -> P (f x)) -> forall l i, Forall P l -> Forall P (upd l i f).
Proof.
  intros Hf l. induction l as [|x l IH]; intros i Hl; [constructor|].
  inversion Hl as [|? ? Hx Hr]; subst.
  destruct i; cbn [upd]; constructor; auto.
Qed.

Lemma broadcast_all_Forall (env : Env) (P : MessageState -> Prop) :
  (forall sig m, P m -> P (set_DestTxHash sig (set_Status Complete m))) ->
  (forall m, P m -> P (set_Updated (env_now env) (set_Status Complete m))) ->
  forall bq ms rq, Forall P ms -> Forall P (fst (broadcast_all env bq ms rq)).
Proof.
  intros Hw Hm bq. induction bq as [|[d idxs] bq IH]; intros ms rq Hms; [exact Hms|].
  cbn [broadcast_all].
  assert (Hwb : forall idxs sigs ms, Forall P ms -> Forall P (write_back idxs sigs ms)).
  { intros idxs0. induction idxs0 as [|j idxs0 IHi]; intros sigs ms0 H0;
      [destruct sigs; exact H0|].
    destruct sigs as [|[sig|] sigs]; cbn [write_back]; [exact H0| |auto].
    apply IHi. apply upd_Forall; [apply Hw | exact H0]. }
  assert (Hmc : forall ms, Forall P ms -> Forall P (mark_complete (env_now env) idxs ms)).
  { unfold mark_complete. induction idxs as [|j idxs IHi]; intros ms0 H0; [exact H0|].
    cbn [fold_left]. apply IHi. apply upd_Forall; [apply Hm | exact H0]. }
  destruct (lookup_domain d (env_domains env)) as [c|]; [|auto].
  destruct (ChainBroadcast c _) as [sigs ok].
  destruct ok; apply IH; auto.
Qed.

Lemma pass_msgs_budget (env : Env) (cfg : CircleSettings) (ms : list MessageState) :
  Forall (reattest_budget cfg) ms -> Forall (reattest_budget cfg) (pass_msgs env cfg ms).
Proof.
  intros Hms. unfold pass_msgs.
  pose proof (process_msgs_forall env cfg (reattest_budget cfg) (reattest_budget cfg)
                (process_msg_budget env cfg) ms O [] false Hms) as H1.
  destruct (process_msgs env cfg O ms [] false) as [[ms1 bq] rq1]. cbn [fst] in H1.
  apply broadcast_all_Forall; [| |exact H1];
    intros; apply (budget_terminal cfg m); auto; left; reflexivity.
Qed.

(** The same with the status named: above the limit only as [Failed]. *)
Lemma apply_handle_failed (svc : AttestationService) (now : Z) (m : MessageState)
    (cfg : CircleSettings) (b : Z) :
  0 <= ReattestCount m <= maxRetriesOf cfg ->
  let m' := ApplyReattestResult now m (fst (fst (HandleExpiringAttestation svc m cfg b))) in
  0 <= ReattestCount m'
  /\ (ReattestCount m' <= maxRetriesOf cfg
      \/ (ReattestCount m' = maxRetriesOf cfg + 1 /\ Status m' = Failed)).
Proof.
  intros Hc m'. unfold m'. clear m'.
  assert (Hid : forall r, ShouldReattest r = false -> ApplyReattestResult now m r = m)
    by (intros r Hr; unfold ApplyReattestResult; now rewrite Hr).
  pose proof (add64_succ_le (ReattestCount m) (proj1 Hc)) as Ha.
  unfold HandleExpiringAttestation.
  destruct (ExpirationBlock m =? 0); [cbn [fst]; rewrite Hid by reflexivity; lia|].
  destruct (add64 b (ExpirationBufferBlocks cfg) <? ExpirationBlock m);
    [cbn [fst]; rewrite Hid by reflexivity; lia|].
  destruct (maxRetriesOf cfg <=? ReattestCount m) eqn:Hle.
  - apply Z.leb_le in Hle. cbn [fst].
    destruct (ApplyReattestResult_count now m (mkResult true "" 0 true false) eq_refl)
      as [Hn [Hf _]].
    rewrite Hn, (Hf eq_refl).
    split; [lia|].
    destruct (Z.le_gt_cases (add64 (ReattestCount m) 1) (maxRetriesOf cfg)); [left; lia|].
    right. split; [lia | reflexivity].
  - apply Z.leb_gt in Hle.
    assert (Hk : forall r, ShouldReattest r = true ->
              0 <= ReattestCount (ApplyReattestResult now m r)
              /\ (ReattestCount (ApplyReattestResult now m r) <= maxRetriesOf cfg
                  \/ (ReattestCount (ApplyReattestResult now m r) = maxRetriesOf cfg + 1
                      /\ Status (ApplyReattestResult now m r) = Failed))).
    { intros r Hr. rewrite (proj1 (ApplyReattestResult_count now m r Hr)). lia. }
    destruct (svc_reattest svc (SourceDomain m) (Nonce m));
      [|destruct (svc_v2_message svc (SourceTxHash m) (SourceDomain m))];
      cbn [fst]; apply Hk; reflexivity.
Qed.

(** Claim C1 (amended): with [maxRetriesOf cfg] the configured
    [reattestMaxRetries] (3 when it is 0), one expiration check and its
    application take a [reattestCount] within that limit to at most one above
    it, and above it only together with status [Failed]; hence a pass over a
    stored transaction keeps every message within
    [reattestCount <= maxRetriesOf cfg], or [maxRetriesOf cfg + 1] at a
    terminal status. *)
Theorem reattest_budget_preserved (cfg : CircleSettings) :
  (forall svc now m b, 0 <= ReattestCount m <= maxRetriesOf cfg ->
     let m' := ApplyReattestResult now m (fst (fst (HandleExpiringAttestation svc m cfg b))) in
     0 <= ReattestCount m'
     /\ (ReattestCount m' <= maxRetriesOf cfg
         \/ (ReattestCount m' = maxRetriesOf cfg + 1 /\ Status m' = Failed)))
  /\ (forall env w w' t tx,
        nth_error (heap w) t = Some tx ->
        lookup_store (TxHash tx) (store w) = Some t ->
        Forall (reattest_budget cfg) (Msgs tx) ->
        worker_pass cfg env w = Some w' ->
        exists tx', nth_error (heap w') t = Some tx'
                    /\ Forall (reattest_budget cfg) (Msgs tx')).
Proof.
  split; [intros svc now m b; apply apply_handle_failed|].
  intros env w w' t tx Ht Hs Hb Hpass.
  pose proof (worker_pass_stored cfg env w w' t tx Ht Hs Hpass) as Hcases.
  unfold msgs_at in Hcases.
  destruct (nth_error (heap w') t) as [tx'|]; [|destruct Hcases as [H|H]; discriminate].
  exists tx'. split; [reflexivity|]. cbn [option_map] in Hcases.
  destruct Hcases as [H|H]; injection H as ->; [exact Hb|].
  now apply pass_msgs_budget.
Qed.

(** ** Instances of the properties *)

Lemma ParseExpirationBlock_roundtrip_default_witness :
  ParseExpirationBlock (FormatUint 2000) = 2000 /\ ParseExpirationBlock "12a" = 0.
Proof.
  split.
  - apply (proj1 ParseExpirationBlock_roundtrip_default).
    unfold is_u64, two64. lia.
  - apply (proj2 (proj2 ParseExpirationBlock_roundtrip_default)).
    intros [_ [Hd _]]. rewrite Forall_forall in Hd.
    specialize (Hd "a"%char). unfold is_digit in Hd. cbn in Hd.
    assert (H : (97 <= 57)%nat) by (apply Hd; auto). lia.
Defined.

Lemma normalizeMessageHash_spec_witness :
  normalizeMessageHash "abc" = "0xabc" /\ normalizeMessageHash "0xabc" = "0xabc"
  /\ normalizeMessageHash "ab" = "ab".
Proof.
  split; [|split].
  - apply (proj1 (normalizeMessageHash_spec "abc")); [cbn; lia | reflexivity].
  - apply (proj1 (proj2 (normalizeMessageHash_spec "0xabc"))). reflexivity.
  - apply (proj2 (proj2 (normalizeMessageHash_spec "ab"))). cbn; lia.
Defined.

Lemma HandleExpiringAttestation_not_expiring_witness :
  let '(result, err, calls) := HandleExpiringAttestation sample_svc sample_msg sample_cfg 800 in
  ShouldReattest result = false /\ err = None /\ calls = []
  /\ ApplyReattestResult 1 sample_msg result = sample_msg.
Proof.
  apply (HandleExpiringAttestation_not_expiring sample_svc 1 sample_msg sample_cfg 800);
    unfold is_u64, two64; cbn; lia.
Defined.

Lemma HandleExpiringAttestation_exhausted_witness :
  let m := set_ReattestCount 3 sample_msg in
  let '(result, err, calls) := HandleExpiringAttestation sample_svc m sample_cfg 920 in
  ExhaustedRetries result = true
  /\ (exists e, err = Some e /\ str_contains "max re-attestation attempts reached" e = true)
  /\ calls = []
  /\ Status (ApplyReattestResult 1 m result) = Failed
  /\ Updated (ApplyReattestResult 1 m result) = 1
  /\ LastReattestTime (ApplyReattestResult 1 m result) = 1.
Proof.
  apply (HandleExpiringAttestation_exhausted sample_svc 1 (set_ReattestCount 3 sample_msg)
           sample_cfg 920).
  - vm_compute. reflexivity.
  - unfold maxRetriesOf. cbn. lia.
Defined.

Lemma ApplyReattestResult_frame_witness :
  ApplyReattestResult 1 sample_msg emptyResult = sample_msg.
Proof.
  pose proof (ApplyReattestResult_frame 1 sample_msg emptyResult) as Hf. cbv zeta in Hf.
  destruct Hf as (_ & _ & _ & _ & _ & _ & _ & _ & _ & _ & _ & H).
  apply H. reflexivity.
Defined.

Lemma FilterRegistry_Filter_spec_witness :
  FilterRegistry_Filter [drop_all_filter] sample_msg = (true, "dropped").
Proof.
  apply (proj2 (proj1 (FilterRegistry_Filter_spec sample_msg) [] drop_all_filter []
                  "dropped" (Forall_nil _) eq_refl)).
Defined.


Lemma reattest_budget_preserved_witness :
  (let m' := ApplyReattestResult 1 (set_ReattestCount 3 sample_msg)
               (fst (fst (HandleExpiringAttestation sample_svc (set_ReattestCount 3 sample_msg)
                            sample_cfg 920))) in
   0 <= ReattestCount m'
   /\ (ReattestCount m' <= maxRetriesOf sample_cfg
       \/ (ReattestCount m' = maxRetriesOf sample_cfg + 1 /\ Status m' = Failed)))
  /\ match worker_pass sample_cfg budget_env budget_world with
     | Some w' => exists tx', nth_error (heap w') O = Some tx'
                             /\ Forall (reattest_budget sample_cfg) (Msgs tx')
     | None => False
     end.
Proof.
  destruct (reattest_budget_preserved sample_cfg) as [H1 H2]. split.
  - apply H1. unfold maxRetriesOf. cbn. lia.
  - refine (H2 budget_env budget_world _ O (mkTx "1" [set_ReattestCount 3 sample_msg] 0)
              eq_refl eq_refl _ eq_refl).
    constructor; [|constructor].
    unfold reattest_budget, maxRetriesOf. cbn. lia.
Defined.

(** * Further properties of the code *)

(** ** Strings: suffixes and URLs *)

Lemma str_length_app (a t : string) :
  String.length (a ++ t) = (String.length a + String.length t)%nat.
Proof. induction a as [|c a IH]; cbn; [reflexivity | now rewrite IH]. Qed.

Lemma str_app_assoc (a b c : string) : (a ++ b) ++ c = a ++ (b ++ c).
Proof. induction a as [|x a IH]; cbn; [reflexivity | now rewrite IH]. Qed.

Lemma substring_app_shift (a t : string) (n m : nat) :
  substring (String.length a + n) m (a ++ t) = substring n m t.
Proof. induction a as [|c a IH]; cbn; [reflexivity | exact IH]. Qed.

Lemma substring_full (t : string) : substring 0 (String.length t) t = t.
Proof. induction t as [|c t IH]; cbn; [reflexivity | now rewrite IH]. Qed.

Lemma substring_prefix_app (a t : string) : substring 0 (String.length a) (a ++ t) = a.
Proof. induction a as [|c a IH]; cbn; [destruct t; reflexivity | now rewrite IH]. Qed.

Lemma HasSuffix_app (a t s : string) :
  (String.length s <= String.length t)%nat -> HasSuffix (a ++ t) s = HasSuffix t s.
Proof.
  intros Hle. unfold HasSuffix. rewrite str_length_app.
  assert (Hl1 : (String.length s <=? String.length a + String.length t)%nat = true)
    by (apply Nat.leb_le; lia).
  assert (Hl2 : (String.length s <=? String.length t)%nat = true) by (apply Nat.leb_le; lia).
  rewrite Hl1, Hl2.
  replace (String.length a + String.length t - String.length s)%nat
    with (String.length a + (String.length t - String.length s))%nat by lia.
  now rewrite substring_app_shift.
Qed.

Lemma TrimSuffix_app (a s : string) : TrimSuffix (a ++ s) s = a.
Proof.
  unfold TrimSuffix.
  rewrite (HasSuffix_app a s s (le_n _)).
  unfold HasSuffix. rewrite Nat.leb_refl, Nat.sub_diag, substring_full, String.eqb_refl.
  cbn [andb]. rewrite str_length_app, Nat.add_sub. apply substring_prefix_app.
Qed.

Lemma TrimSuffix_none (s suffix : string) : HasSuffix s suffix = false -> TrimSuffix s suffix = s.
Proof. intros H. unfold TrimSuffix. now rewrite H. Qed.

Lemma normalizeBaseURL_forms (b : string) :
  HasSuffix b "/" = false -> HasSuffix b "/attestations" = false ->
  forall v, In v [b; b ++ "/"; b ++ "/attestations"; b ++ "/attestations/"] ->
  normalizeBaseURL v = b.
Proof.
  intros H1 H2 v Hv. unfold normalizeBaseURL.
  destruct Hv as [<- | [<- | [<- | [<- | []]]]].
  - rewrite (TrimSuffix_none b "/" H1). now apply TrimSuffix_none.
  - rewrite TrimSuffix_app. now apply TrimSuffix_none.
  - rewrite (TrimSuffix_none (b ++ "/attestations") "/")
      by (rewrite HasSuffix_app by (cbn; lia); reflexivity).
    apply TrimSuffix_app.
  - replace "/attestations/" with ("/attestations" ++ "/") by reflexivity.
    rewrite <- str_app_assoc, TrimSuffix_app. apply TrimSuffix_app.
Qed.

(** Extra: [normalizeBaseURL] takes off one trailing ["/"] and then one
    ["/attestations"]; so a base URL [b] and its spellings [b/],
    [b/attestations] and [b/attestations/] give the same URL for every
    request (re-attestation, v2 messages, v1 attestation). *)
Theorem request_urls_base_forms (b : string) :
  HasSuffix b "/" = false -> HasSuffix b "/attestations" = false ->
  forall v, In v [b; b ++ "/"; b ++ "/attestations"; b ++ "/attestations/"] ->
  normalizeBaseURL v = b
  /\ (forall c, http_call_url v c = http_call_url b c)
  /\ (forall id, v1_attestation_url v id = v1_attestation_url b id).
Proof.
  intros H1 H2 v Hv.
  pose proof (normalizeBaseURL_forms b H1 H2 v Hv) as Hn.
  pose proof (normalizeBaseURL_forms b H1 H2 b (or_introl eq_refl)) as Hb.
  split; [exact Hn|]. split.
  - intros [d n | tx d]; cbn [http_call_url]; unfold reattest_url, v2_messages_url;
      now rewrite Hn, Hb.
  - intros id. unfold v1_attestation_url. now rewrite Hn, Hb.
Qed.

Lemma request_urls_base_forms_witness :
  normalizeBaseURL ("https://iris-api.circle.com" ++ "/attestations/") = "https://iris-api.circle.com"
  /\ (forall c, http_call_url ("https://iris-api.circle.com" ++ "/attestations/") c
                = http_call_url "https://iris-api.circle.com" c)
  /\ (forall id, v1_attestation_url ("https://iris-api.circle.com" ++ "/attestations/") id
                 = v1_attestation_url "https://iris-api.circle.com" id).
Proof.
  apply request_urls_base_forms; [reflexivity | reflexivity |].
  right; right; right; left; reflexivity.
Defined.

(** Extra: [normalizeMessageHash] is idempotent: a hash it has normalised
    is left as it is. *)
Theorem normalizeMessageHash_idempotent (h : string) :
  normalizeMessageHash (normalizeMessageHash h) = normalizeMessageHash h.
Proof.
  unfold normalizeMessageHash at 2 3.
  destruct ((2 <? String.length h)%nat && negb (String.eqb (substring 0 2 h) "0x")) eqn:E.
  - apply andb_true_iff in E as [E _]. apply Nat.ltb_lt in E.
    unfold normalizeMessageHash.
    change (substring 0 2 ("0x" ++ h)) with (substring 0 (String.length "0x") ("0x" ++ h)).
    rewrite substring_prefix_app, String.eqb_refl, andb_false_r. reflexivity.
  - unfold normalizeMessageHash. now rewrite E.
Qed.

(** ** The expiration check *)

Lemma Handle_should (svc : AttestationService) (m : MessageState) (cfg : CircleSettings)
    (b : Z) :
  ShouldReattest (fst (fst (HandleExpiringAttestation svc m cfg b)))
  = negb (ExpirationBlock m =? 0) && (ExpirationBlock m <=? add64 b (ExpirationBufferBlocks cfg)).
Proof.
  unfold HandleExpiringAttestation.
  destruct (ExpirationBlock m =? 0); [reflexivity|]. cbn [negb andb].
  destruct (add64 b (ExpirationBufferBlocks cfg) <? ExpirationBlock m) eqn:E.
  - apply Z.ltb_lt in E. symmetry. apply Z.leb_gt. exact E.
  - apply Z.ltb_ge in E. apply Z.leb_le in E. rewrite E.
    destruct (maxRetriesOf cfg <=? ReattestCount m); [reflexivity|].
    destruct (svc_reattest svc (SourceDomain m) (Nonce m)); [reflexivity|].
    destruct (svc_v2_message svc (SourceTxHash m) (SourceDomain m)); reflexivity.
Qed.

(** Extra: [HandleExpiringAttestation] asks for re-attestation exactly when
    the message has an expiration block and that block is at most the
    current block plus the buffer, the sum taken as a [uint64] (wrapping
    modulo 2^64); the boundary block itself counts as expiring. *)
Theorem HandleExpiringAttestation_should_reattest (svc : AttestationService)
    (m : MessageState) (cfg : CircleSettings) (b : Z) :
  ShouldReattest (fst (fst (HandleExpiringAttestation svc m cfg b))) = true
  <-> ExpirationBlock m <> 0 /\ ExpirationBlock m <= (b + ExpirationBufferBlocks cfg) mod 2 ^ 64.
Proof.
  rewrite Handle_should. unfold add64, two64.
  rewrite andb_true_iff, negb_true_iff, Z.eqb_neq, Z.leb_le. reflexivity.
Qed.

Ltac req_solve :=
  repeat (split || intro);
  repeat match goal with
         | H : _ /\ _ |- _ => destruct H
         | H : _ \/ _ |- _ => destruct H
         end;
  cbn in *;
  try solve [discriminate | congruence | lia | auto
            | left; reflexivity | right; left; reflexivity | right; right; reflexivity
            | exfalso; congruence | split; [reflexivity | lia]].

(** Extra: the requests and the error of [HandleExpiringAttestation]. It
    calls the service only when it re-attests with retries left: first the
    re-attestation POST, then, if that succeeded, the v2 message GET.
    [RemoveFromQueue] is set exactly when the POST failed, never together
    with [ExhaustedRetries], and an error is returned unless there is
    nothing to do or both requests were made. *)
Theorem HandleExpiringAttestation_requests (svc : AttestationService) (m : MessageState)
    (cfg : CircleSettings) (b : Z) :
  let '(r, err, calls) := HandleExpiringAttestation svc m cfg b in
  (calls <> [] <-> ShouldReattest r = true /\ ReattestCount m < maxRetriesOf cfg)
  /\ (calls = [] \/ calls = [CallReattest (SourceDomain m) (Nonce m)]
      \/ calls = [CallReattest (SourceDomain m) (Nonce m);
                  CallGetV2Message (SourceTxHash m) (SourceDomain m)])
  /\ (RemoveFromQueue r = true <-> calls = [CallReattest (SourceDomain m) (Nonce m)])
  /\ ~ (RemoveFromQueue r = true /\ ExhaustedRetries r = true)
  /\ (err = None <-> ShouldReattest r = false \/ length calls = 2%nat).
Proof.
  unfold HandleExpiringAttestation.
  destruct (ExpirationBlock m =? 0); [cbn; req_solve|].
  destruct (add64 b (ExpirationBufferBlocks cfg) <? ExpirationBlock m); [cbn; req_solve|].
  destruct (maxRetriesOf cfg <=? ReattestCount m) eqn:Hle.
  - apply Z.leb_le in Hle. cbn. req_solve.
  - apply Z.leb_gt in Hle.
    destruct (svc_reattest svc (SourceDomain m) (Nonce m));
      [|destruct (svc_v2_message svc (SourceTxHash m) (SourceDomain m))]; cbn; req_solve.
Qed.

(** Extra: a successful re-attestation whose v2 message lookup fails (or
    carries no expiration block) keeps the old expiration block: the count
    goes up by one, the new attestation is stored, and at the same block the
    message is still expiring, so the next pass re-attests it again. *)
Theorem reattest_without_new_expiry (svc : AttestationService) (m : MessageState)
    (cfg : CircleSettings) (b now : Z) (resp : AttestationResponse) :
  ExpirationBlock m <> 0 -> ExpirationBlock m <= add64 b (ExpirationBufferBlocks cfg) ->
  ReattestCount m < maxRetriesOf cfg ->
  svc_reattest svc (SourceDomain m) (Nonce m) = inr resp ->
  (forall u, svc_v2_message svc (SourceTxHash m) (SourceDomain m) = Some u ->
             ParseExpirationBlock (V2ExpirationBlock u) = 0) ->
  let m' := ApplyReattestResult now m (fst (fst (HandleExpiringAttestation svc m cfg b))) in
  ExpirationBlock m' = ExpirationBlock m
  /\ ReattestCount m' = add64 (ReattestCount m) 1
  /\ Status m' = Status m
  /\ (RespAttestation resp <> "" -> Attestation m' = RespAttestation resp)
  /\ ShouldReattest (fst (fst (HandleExpiringAttestation svc m' cfg b))) = true.
Proof.
  intros H0 Hb Hc Hre Hv m'.
  assert (Hr : fst (fst (HandleExpiringAttestation svc m cfg b))
               = mkResult true (RespAttestation resp) 0 false false).
  { unfold HandleExpiringAttestation.
    apply Z.eqb_neq in H0. rewrite H0.
    assert (E1 : (add64 b (ExpirationBufferBlocks cfg) <? ExpirationBlock m) = false)
      by (apply Z.ltb_ge; lia).
    assert (E2 : (maxRetriesOf cfg <=? ReattestCount m) = false) by (apply Z.leb_gt; lia).
    rewrite E1, E2, Hre.
    destruct (svc_v2_message svc (SourceTxHash m) (SourceDomain m)) as [u|] eqn:Eu;
      [cbn; now rewrite (Hv u eq_refl) | reflexivity]. }
  assert (Hm : ExpirationBlock m' = ExpirationBlock m
               /\ ReattestCount m' = add64 (ReattestCount m) 1
               /\ Status m' = Status m
               /\ (RespAttestation resp <> "" -> Attestation m' = RespAttestation resp)).
  { unfold m'. rewrite Hr. unfold ApplyReattestResult. cbn [ShouldReattest negb
      ExhaustedRetries NewAttestation NewExpirationBlock].
    destruct (String.eqb (RespAttestation resp) "") eqn:Ea; cbn.
    - apply String.eqb_eq in Ea. repeat split; auto. intros H; contradiction.
    - repeat split; auto. }
  destruct Hm as (He & Hn & Hs & Ha).
  repeat split; auto.
  rewrite Handle_should, He.
  apply andb_true_iff. split.
  - apply negb_true_iff, Z.eqb_neq. exact H0.
  - apply Z.leb_le. exact Hb.
Qed.

Lemma reattest_without_new_expiry_witness :
  let m' := ApplyReattestResult 5 sample_msg
              (fst (fst (HandleExpiringAttestation stale_svc sample_msg sample_cfg 920))) in
  ExpirationBlock m' = ExpirationBlock sample_msg
  /\ ReattestCount m' = add64 (ReattestCount sample_msg) 1
  /\ Status m' = Status sample_msg
  /\ (RespAttestation (mkResp "fresh" "complete") <> "" ->
      Attestation m' = RespAttestation (mkResp "fresh" "complete"))
  /\ ShouldReattest (fst (fst (HandleExpiringAttestation stale_svc m' sample_cfg 920))) = true.
Proof.
  apply (reattest_without_new_expiry stale_svc sample_msg sample_cfg 920 5
           (mkResp "fresh" "complete")).
  - vm_compute. discriminate.
  - vm_compute. discriminate.
  - vm_compute. reflexivity.
  - reflexivity.
  - intros u Hu. discriminate.
Defined.

(** ** The broadcast queue *)

Lemma bq_lookup_None (d : Z) (q : BroadcastQueue) :
  ~ In d (map fst q) -> bq_lookup d q = None.
Proof.
  induction q as [|[k l] q IH]; cbn; intros Hn; auto.
  destruct (Z.eqb_spec k d); [subst; tauto|]. apply IH. tauto.
Qed.

Lemma bq_lookup_In (d : Z) (l : list nat) (q : BroadcastQueue) :
  bq_lookup d q = Some l -> In (d, l) q.
Proof.
  induction q as [|[k l0] q IH]; cbn; [discriminate|].
  destruct (Z.eqb_spec k d); [intros H; injection H as <-; subst; now left|].
  intros H; right; auto.
Qed.

Lemma Remove_keys (q : BroadcastQueue) (d : Z) (i : nat) (k : Z) :
  In k (map fst (RemoveMessageFromQueue q d i)) -> In k (map fst q).
Proof.
  induction q as [|[k0 l] q IH]; cbn; auto.
  destruct (k0 =? d).
  - destruct (filter _ l); cbn; tauto.
  - cbn. intros [H|H]; auto.
Qed.

Lemma append_keys (q : BroadcastQueue) (d : Z) (i : nat) (k : Z) :
  In k (map fst (bq_append d i q)) -> k = d \/ In k (map fst q).
Proof.
  induction q as [|[k0 l] q IH]; cbn.
  - intros [H|[]]; auto.
  - destruct (Z.eqb_spec k0 d); cbn; intros [H|H]; auto.
    destruct (IH H); auto.
Qed.

Lemma filter_notin (i : nat) (l : list nat) :
  ~ In i l -> filter (fun j => negb (Nat.eqb j i)) l = l.
Proof.
  induction l as [|x l IH]; cbn; intros Hn; auto.
  destruct (Nat.eqb_spec x i); [subst; tauto|]. cbn. f_equal. apply IH. tauto.
Qed.

(** What [RemoveMessageFromQueue] does to a well-formed queue. *)
Lemma Remove_spec (q : BroadcastQueue) (d : Z) (i : nat) :
  bq_wf q ->
  bq_wf (RemoveMessageFromQueue q d i)
  /\ bq_lookup d (RemoveMessageFromQueue q d i)
     = match bq_lookup d q with
       | None => None
       | Some l => match filter (fun j => negb (Nat.eqb j i)) l with
                   | [] => None
                   | l' => Some l'
                   end
       end
  /\ (forall d', d' <> d -> bq_lookup d' (RemoveMessageFromQueue q d i) = bq_lookup d' q).
Proof.
  induction q as [|[k l] q IH]; intros [Hnd Hne]; [repeat split; auto; constructor|].
  cbn in Hnd. inversion Hnd as [|? ? Hk Hnd']; subst.
  inversion Hne as [|? ? Hl Hne']; subst.
  destruct (IH (conj Hnd' Hne')) as (Hwf & Hd & Ho).
  cbn [RemoveMessageFromQueue bq_lookup].
  destruct (Z.eqb_spec k d) as [->|Hkd].
  - destruct (filter (fun j => negb (Nat.eqb j i)) l) as [|x l'] eqn:Ef.
    + repeat split; auto.
      * now apply bq_lookup_None.
      * intros d' Hd'. cbn. apply Z.eqb_neq in Hd'. rewrite Z.eqb_sym, Hd'. reflexivity.
    + repeat split.
      * cbn. constructor; auto.
      * constructor; auto. cbn. discriminate.
      * cbn. now rewrite Z.eqb_refl.
      * intros d' Hd'. cbn. apply Z.eqb_neq in Hd'. rewrite Z.eqb_sym, Hd'. reflexivity.
  - apply Z.eqb_neq in Hkd as Hkd'. repeat split.
    + cbn. constructor; [|apply Hwf]. intros Hin. apply Hk. exact (Remove_keys q d i k Hin).
    + constructor; [exact Hl | apply Hwf].
    + cbn. rewrite Hkd'. exact Hd.
    + intros d' Hd'. cbn. destruct (k =? d'); auto.
Qed.

(** What [bq_append] (Go's [append] on the map entry) does. *)
Lemma append_spec (q : BroadcastQueue) (d : Z) (i : nat) :
  bq_wf q ->
  bq_wf (bq_append d i q)
  /\ bq_lookup d (bq_append d i q)
     = Some match bq_lookup d q with None => [i] | Some l => app l [i] end
  /\ (forall d', d' <> d -> bq_lookup d' (bq_append d i q) = bq_lookup d' q).
Proof.
  induction q as [|[k l] q IH]; intros [Hnd Hne].
  - cbn. rewrite Z.eqb_refl. repeat split.
    + constructor; [tauto | constructor].
    + constructor; [cbn; discriminate | constructor].
    + intros d' Hd'. apply Z.eqb_neq in Hd'. now rewrite Z.eqb_sym, Hd'.
  - cbn in Hnd. inversion Hnd as [|? ? Hk Hnd']; subst.
    inversion Hne as [|? ? Hl Hne']; subst.
    destruct (IH (conj Hnd' Hne')) as (Hwf & Hd & Ho).
    cbn [bq_append bq_lookup].
    destruct (Z.eqb_spec k d) as [->|Hkd].
    + repeat split.
      * exact Hnd.
      * constructor; [|exact Hne']. cbn. intros H. apply app_eq_nil in H. now destruct H.
      * cbn. now rewrite Z.eqb_refl.
      * intros d' Hd'. cbn. apply Z.eqb_neq in Hd'. now rewrite Z.eqb_sym, Hd'.
    + apply Z.eqb_neq in Hkd as Hkd'. repeat split.
      * cbn. constructor; [|apply Hwf].
        intros Hin. destruct (append_keys q d i k Hin); [congruence | tauto].
      * constructor; [exact Hl | apply Hwf].
      * cbn. rewrite Hkd'. exact Hd.
      * intros d' Hd'. cbn. destruct (k =? d'); auto.
Qed.

Lemma append_Remove (q : BroadcastQueue) (d : Z) (i : nat) :
  bq_wf q -> (forall l, bq_lookup d q = Some l -> ~ In i l) ->
  RemoveMessageFromQueue (bq_append d i q) d i = q.
Proof.
  induction q as [|[k l] q IH]; intros [Hnd Hne] Hi.
  - cbn. rewrite Z.eqb_refl. cbn. now rewrite Nat.eqb_refl.
  - cbn in Hnd. inversion Hnd as [|? ? Hk Hnd']; subst.
    inversion Hne as [|? ? Hl Hne']; subst.
    cbn [bq_append]. cbn in Hi.
    destruct (k =? d) eqn:Ekd.
    + apply Z.eqb_eq in Ekd; subst k. cbn [RemoveMessageFromQueue]. rewrite Z.eqb_refl.
      rewrite filter_app, filter_notin by (apply (Hi l); reflexivity).
      cbn. rewrite Nat.eqb_refl, app_nil_r.
      destruct l; [cbn in Hl; congruence | reflexivity].
    + cbn [RemoveMessageFromQueue]. rewrite Ekd. f_equal. apply IH; auto. split; auto.
Qed.

(** Extra: [RemoveMessageFromQueue] on a queue that is a Go map of
    non-empty slices keeps it one, takes every copy of the message out of
    its domain's slice, deletes the slice when it becomes empty, and leaves
    every other domain as it was. *)
Theorem RemoveMessageFromQueue_spec (q : BroadcastQueue) (d : Z) (i : nat) :
  bq_wf q ->
  bq_wf (RemoveMessageFromQueue q d i)
  /\ bq_lookup d (RemoveMessageFromQueue q d i)
     = match bq_lookup d q with
       | None => None
       | Some l => match filter (fun j => negb (Nat.eqb j i)) l with
                   | [] => None
                   | l' => Some l'
                   end
       end
  /\ (forall d', d' <> d -> bq_lookup d' (RemoveMessageFromQueue q d i) = bq_lookup d' q).
Proof. apply Remove_spec. Qed.

Lemma sample_bq_wf : bq_wf sample_bq.
Proof.
  split.
  - cbn. constructor; [cbn; intros [H|[]]; discriminate | constructor; [tauto | constructor]].
  - repeat constructor; cbn; discriminate.
Qed.

Lemma RemoveMessageFromQueue_spec_witness :
  bq_wf (RemoveMessageFromQueue sample_bq 5 2)
  /\ bq_lookup 5 (RemoveMessageFromQueue sample_bq 5 2)
     = match bq_lookup 5 sample_bq with
       | None => None
       | Some l => match filter (fun j => negb (Nat.eqb j 2)) l with
                   | [] => None
                   | l' => Some l'
                   end
       end
  /\ (forall d', d' <> 5 -> bq_lookup d' (RemoveMessageFromQueue sample_bq 5 2)
                            = bq_lookup d' sample_bq).
Proof. apply RemoveMessageFromQueue_spec. exact sample_bq_wf. Defined.

(** Extra: removing a message just queued undoes the queueing: on a
    well-formed queue whose slice for [d] does not hold [i],
    [RemoveMessageFromQueue (append d i q) d i] gives back [q]. *)
Theorem bq_append_Remove_roundtrip (q : BroadcastQueue) (d : Z) (i : nat) :
  bq_wf q -> (forall l, bq_lookup d q = Some l -> ~ In i l) ->
  RemoveMessageFromQueue (bq_append d i q) d i = q.
Proof. apply append_Remove. Qed.

Lemma bq_append_Remove_roundtrip_witness :
  RemoveMessageFromQueue (bq_append 4 3 sample_bq) 4 3 = sample_bq.
Proof.
  apply bq_append_Remove_roundtrip.
  - exact sample_bq_wf.
  - intros l Hl. cbn in Hl. injection Hl as <-. cbn. lia.
Defined.

(** ** Re-attestation inside the message loop *)

Lemma expiry_step_reattest_failed env cfg i m bq rq ch err :
  APIVersionV2 cfg = true -> Status m = Attested -> 0 < ExpirationBlock m ->
  lookup_domain (DestDomain m) (env_domains env) = Some ch ->
  ExpirationBlock m <= add64 (LatestBlock ch) (ExpirationBufferBlocks cfg) ->
  ReattestCount m < maxRetriesOf cfg ->
  svc_reattest (env_svc env) (SourceDomain m) (Nonce m) = inl err ->
  expiry_step env cfg i m bq rq
  = (set_LastReattestTime (env_now env) (set_ReattestCount (add64 (ReattestCount m) 1) m),
     RemoveMessageFromQueue bq (DestDomain m) i, true).
Proof.
  intros Hv Hs He Hch Hb Hc Hre. unfold expiry_step.
  rewrite Hv, Hs, String.eqb_refl. apply Z.ltb_lt in He. rewrite He. cbn [andb].
  rewrite Hch.
  assert (Hr : HandleExpiringAttestation (env_svc env) m cfg (LatestBlock ch)
               = (mkResult true "" 0 false true,
                  Some ("re-attestation failed for nonce " ++ FormatUint (Nonce m) ++ ": " ++ err),
                  [CallReattest (SourceDomain m) (Nonce m)])).
  { unfold HandleExpiringAttestation.
    assert (E0 : (ExpirationBlock m =? 0) = false) by (apply Z.eqb_neq; apply Z.ltb_lt in He; lia).
    assert (E1 : (add64 (LatestBlock ch) (ExpirationBufferBlocks cfg) <? ExpirationBlock m)
                 = false) by (apply Z.ltb_ge; lia).
    assert (E2 : (maxRetriesOf cfg <=? ReattestCount m) = false) by (apply Z.leb_gt; lia).
    now rewrite E0, E1, E2, Hre. }
  rewrite Hr. reflexivity.
Qed.

(** Extra: when the re-attestation request itself fails for an attested
    Fast Transfer message that is expiring, the message loop takes it out of
    its destination's broadcast slice (so it is not minted with the old
    attestation) and requeues the transaction; the message stays [Attested]
    with its attestation and expiration block, one re-attestation counted,
    and the queue stays a map of non-empty slices with every other domain
    unchanged. *)
Theorem expiry_reattest_failure_dequeues (env : Env) (cfg : CircleSettings) (i : nat)
    (m : MessageState) (bq : BroadcastQueue) (rq : bool) (ch : Chain) (err : string) :
  bq_wf bq ->
  APIVersionV2 cfg = true -> Status m = Attested -> 0 < ExpirationBlock m ->
  lookup_domain (DestDomain m) (env_domains env) = Some ch ->
  ExpirationBlock m <= add64 (LatestBlock ch) (ExpirationBufferBlocks cfg) ->
  ReattestCount m < maxRetriesOf cfg ->
  svc_reattest (env_svc env) (SourceDomain m) (Nonce m) = inl err ->
  let '(m', bq', rq') := expiry_step env cfg i m bq rq in
  rq' = true /\ Status m' = Attested /\ Attestation m' = Attestation m
  /\ ExpirationBlock m' = ExpirationBlock m
  /\ ReattestCount m' = add64 (ReattestCount m) 1
  /\ bq_wf bq'
  /\ (forall l, bq_lookup (DestDomain m) bq' = Some l -> ~ In i l)
  /\ (forall d', d' <> DestDomain m -> bq_lookup d' bq' = bq_lookup d' bq).
Proof.
  intros Hwf Hv Hs He Hch Hb Hc Hre.
  rewrite (expiry_step_reattest_failed env cfg i m bq rq ch err Hv Hs He Hch Hb Hc Hre).
  destruct (Remove_spec bq (DestDomain m) i Hwf) as (Hwf' & Hd & Ho).
  refine (conj eq_refl (conj Hs (conj eq_refl (conj eq_refl (conj eq_refl
            (conj Hwf' (conj _ Ho))))))).
  intros l Hl Hin. rewrite Hd in Hl.
  destruct (bq_lookup (DestDomain m) bq) as [l0|]; [|discriminate].
  destruct (filter (fun j => negb (Nat.eqb j i)) l0) as [|x l'] eqn:Ef; [discriminate|].
  injection Hl as <-. rewrite <- Ef in Hin. apply filter_In in Hin as [_ Hin].
  rewrite Nat.eqb_refl in Hin. discriminate.
Qed.

Lemma expiry_reattest_failure_dequeues_witness :
  let '(m', bq', rq') := expiry_step failing_env sample_cfg O sample_msg sample_bq false in
  rq' = true /\ Status m' = Attested /\ Attestation m' = Attestation sample_msg
  /\ ExpirationBlock m' = ExpirationBlock sample_msg
  /\ ReattestCount m' = add64 (ReattestCount sample_msg) 1
  /\ bq_wf bq'
  /\ (forall l, bq_lookup (DestDomain sample_msg) bq' = Some l -> ~ In O l)
  /\ (forall d', d' <> DestDomain sample_msg -> bq_lookup d' bq' = bq_lookup d' sample_bq).
Proof.
  apply (expiry_reattest_failure_dequeues failing_env sample_cfg O sample_msg sample_bq false
           sample_solana "503").
  - exact sample_bq_wf.
  - reflexivity.
  - reflexivity.
  - vm_compute. reflexivity.
  - reflexivity.
  - vm_compute. discriminate.
  - vm_compute. reflexivity.
  - reflexivity.
Defined.

(** ** Attested and finished messages across a worker pass *)

Lemma apply_status_hash (now : Z) (m : MessageState) (r : ReattestResult) :
  (Status (ApplyReattestResult now m r) = Status m
   \/ Status (ApplyReattestResult now m r) = Failed)
  /\ DestTxHash (ApplyReattestResult now m r) = DestTxHash m.
Proof.
  unfold ApplyReattestResult.
  destruct (negb (ShouldReattest r)); [auto|].
  destruct (ExhaustedRetries r); [cbn; auto|].
  destruct (negb (String.eqb (NewAttestation r) "")), (0 <? NewExpirationBlock r); cbn; auto.
Qed.

Lemma expiry_step_status_hash env cfg i m bq rq :
  let m' := fst (fst (expiry_step env cfg i m bq rq)) in
  (Status m' = Status m \/ Status m' = Failed) /\ DestTxHash m' = DestTxHash m.
Proof.
  unfold expiry_step.
  destruct (APIVersionV2 cfg && String.eqb (Status m) Attested && (0 <? ExpirationBlock m));
    [|cbn; auto].
  destruct (lookup_domain (DestDomain m) (env_domains env)) as [ch|]; [|cbn; auto].
  destruct (HandleExpiringAttestation (env_svc env) m cfg (LatestBlock ch)) as [[r e] c].
  destruct (RemoveFromQueue r); apply apply_status_hash.
Qed.

Lemma process_msg_attested env cfg i m bq rq :
  Status m = Attested ->
  let m' := fst (fst (process_msg env cfg i m bq rq)) in
  (Status m' = Attested \/ Status m' = Failed \/ Status m' = Filtered)
  /\ DestTxHash m' = DestTxHash m.
Proof.
  intros Hs. unfold process_msg.
  destruct (filter_step_cases env m) as [Hf | [Hf _]]; rewrite Hf.
  - rewrite Hs. cbn [String.eqb orb Created Pending Attested].
    destruct (expiry_step_status_hash env cfg i m bq rq) as [[H|H] H2]; rewrite ?Hs in H; auto.
  - cbn [Status set_Status String.eqb orb Created Pending Filtered].
    rewrite expiry_step_idle by reflexivity. cbn. auto.
Qed.

Lemma pass_msgs_attested (env : Env) (cfg : CircleSettings) (ms : list MessageState)
    (j : nat) (m : MessageState) :
  nth_error ms j = Some m -> Status m = Attested ->
  exists m', nth_error (pass_msgs env cfg ms) j = Some m'
  /\ (Status m' = Attested \/ Status m' = Failed \/ Status m' = Filtered)
  /\ DestTxHash m' = DestTxHash m.
Proof.
  intros Hj Hs. unfold pass_msgs.
  pose proof (process_msgs_nth env cfg ms O [] false j m Hj) as [bq' [rq' Hn]].
  pose proof (process_msgs_indices env cfg ms O [] false j) as Hidx.
  destruct (process_msgs env cfg O ms [] false) as [[ms1 bq] rq1].
  cbn [fst snd] in Hn, Hidx.
  rewrite broadcast_all_other.
  - rewrite Hn. eexists. split; [reflexivity|]. now apply process_msg_attested.
  - intros Hin. destruct (Hidx Hin) as [[]|[m0 [_ [Hm0 Haw]]]].
    rewrite Nat.sub_0_r, Hj in Hm0. injection Hm0 as <-.
    destruct (filter_step_cases env m) as [Hf | [Hf _]]; rewrite Hf in Haw;
      cbn in Haw; rewrite ?Hs in Haw; destruct Haw as [H|H]; discriminate.
Qed.

(** Extra: a message that is [Attested] when a pass over its stored
    transaction starts is never broadcast in that pass: only messages that
    get their attestation in the pass itself are queued. It ends the pass
    [Attested], [Failed] (re-attestations exhausted) or [Filtered], with no
    destination transaction hash written. *)
Theorem worker_pass_attested_not_broadcast (cfg : CircleSettings) (env : Env) (w w' : World)
    (t : nat) (tx : TxState) (j : nat) (m : MessageState) :
  nth_error (heap w) t = Some tx ->
  lookup_store (TxHash tx) (store w) = Some t ->
  nth_error (Msgs tx) j = Some m ->
  Status m = Attested ->
  worker_pass cfg env w = Some w' ->
  exists tx' m', nth_error (heap w') t = Some tx' /\ nth_error (Msgs tx') j = Some m'
  /\ (Status m' = Attested \/ Status m' = Failed \/ Status m' = Filtered)
  /\ DestTxHash m' = DestTxHash m.
Proof.
  intros Ht Hs Hj Hst Hpass.
  pose proof (worker_pass_stored cfg env w w' t tx Ht Hs Hpass) as Hcases.
  unfold msgs_at in Hcases.
  destruct (nth_error (heap w') t) as [tx'|]; [|destruct Hcases as [H|H]; discriminate].
  exists tx'. cbn [option_map] in Hcases.
  destruct Hcases as [H|H]; injection H as H.
  - exists m. rewrite H. auto.
  - destruct (pass_msgs_attested env cfg (Msgs tx) j m Hj Hst) as [m' [Hn Hp]].
    exists m'. rewrite H. auto.
Qed.

Lemma worker_pass_attested_not_broadcast_witness :
  exists w', worker_pass sample_cfg budget_env budget_world = Some w'
  /\ exists tx' m', nth_error (heap w') O = Some tx' /\ nth_error (Msgs tx') O = Some m'
     /\ (Status m' = Attested \/ Status m' = Failed \/ Status m' = Filtered)
     /\ DestTxHash m' = DestTxHash (set_ReattestCount 3 sample_msg).
Proof.
  destruct (worker_pass sample_cfg budget_env budget_world) as [w'|] eqn:E;
    [|vm_compute in E; discriminate].
  exists w'. split; [reflexivity|].
  apply (worker_pass_attested_not_broadcast sample_cfg budget_env budget_world w' O
           (mkTx "1" [set_ReattestCount 3 sample_msg] 0) O (set_ReattestCount 3 sample_msg));
    try reflexivity.
  exact E.
Defined.

Lemma process_msg_terminal_full env cfg i m bq rq :
  is_terminal (Status m) -> process_msg env cfg i m bq rq = (filter_step env m, bq, rq).
Proof.
  intros Ht. pose proof (filter_step_terminal env m Ht) as Ht1.
  unfold process_msg.
  assert (Hc : String.eqb (Status (filter_step env m)) Created = false)
    by (destruct Ht1 as [-> | [-> | ->]]; reflexivity).
  assert (Hp : String.eqb (Status (filter_step env m)) Pending = false)
    by (destruct Ht1 as [-> | [-> | ->]]; reflexivity).
  rewrite Hc, Hp. cbn [orb].
  now rewrite expiry_step_idle by (now apply terminal_not_attested).
Qed.

Lemma process_msgs_terminal_all env cfg (ms : list MessageState) :
  Forall (fun m => is_terminal (Status m)) ms ->
  forall i bq rq, process_msgs env cfg i ms bq rq = (map (filter_step env) ms, bq, rq).
Proof.
  induction 1 as [|m ms Hm Hms IH]; intros i bq rq; cbn [process_msgs]; [reflexivity|].
  rewrite process_msg_terminal_full by exact Hm. rewrite IH. reflexivity.
Qed.

(** Extra: when every message of the stored transaction is finished
    ([Complete], [Failed] or [Filtered]), a pass only runs the filters over
    them, broadcasts nothing, and does not requeue: the transaction leaves
    the queue and no retry is counted. *)
Theorem worker_pass_finished_tx (cfg : CircleSettings) (env : Env) (w : World)
    (p t : nat) (rest : list nat) (dtx tx : TxState) :
  queue w = p :: rest ->
  nth_error (heap w) p = Some dtx ->
  lookup_store (TxHash dtx) (store w) = Some t ->
  nth_error (heap w) t = Some tx ->
  Forall (fun m => is_terminal (Status m)) (Msgs tx) ->
  worker_pass cfg env w
  = Some (mkWorld (store w) (upd (heap w) t (set_Msgs (map (filter_step env) (Msgs tx)))) rest).
Proof.
  intros Hq Hp Hl Ht Hall. unfold worker_pass. rewrite Hq, Hp, Hl.
  unfold process_stored. rewrite Ht.
  rewrite (process_msgs_terminal_all env cfg (Msgs tx) Hall O [] false). reflexivity.
Qed.

Lemma worker_pass_finished_tx_witness :
  worker_pass sample_cfg drop_all_env completed_world
  = Some (mkWorld (store completed_world)
            (upd (heap completed_world) O
               (set_Msgs (map (filter_step drop_all_env) [set_Status Complete sample_msg])))
            []).
Proof.
  apply (worker_pass_finished_tx sample_cfg drop_all_env completed_world O O []
           (mkTx "1" [set_Status Complete sample_msg] 0) (mkTx "1" [set_Status Complete sample_msg] 0));
    try reflexivity.
  constructor; [left; reflexivity | constructor].
Defined.

(** Extra: when the dequeued pointer [p] is a second copy of a transaction
    already stored under pointer [t], the pass processes [t]'s messages
    (they become [pass_msgs] of the old ones) and keeps [t]'s retry count,
    leaves the store and [p]'s messages as they were, and either drops the
    transaction or charges the retry to [p] and requeues [t], not [p]. *)
Theorem worker_pass_duplicate (cfg : CircleSettings) (env : Env) (w w' : World)
    (p t : nat) (rest : list nat) (dtx tx : TxState) :
  queue w = p :: rest ->
  nth_error (heap w) p = Some dtx ->
  lookup_store (TxHash dtx) (store w) = Some t ->
  nth_error (heap w) t = Some tx ->
  p <> t ->
  worker_pass cfg env w = Some w' ->
  store w' = store w
  /\ option_map Msgs (nth_error (heap w') t) = Some (pass_msgs env cfg (Msgs tx))
  /\ option_map RetryAttempt (nth_error (heap w') t) = Some (RetryAttempt tx)
  /\ ((queue w' = rest /\ nth_error (heap w') p = Some dtx)
      \/ (queue w' = app rest [t]
          /\ nth_error (heap w') p = Some (set_RetryAttempt (RetryAttempt dtx + 1) dtx))).
Proof.
  intros Hq Hp Hl Ht Hpt Hpass. unfold worker_pass in Hpass. rewrite Hq, Hp, Hl in Hpass.
  unfold process_stored in Hpass. rewrite Ht in Hpass.
  unfold pass_msgs.
  destruct (process_msgs env cfg O (Msgs tx) [] false) as [[ms1 bq] rq1].
  destruct (broadcast_all env bq ms1 rq1) as [ms2 requeue]. cbn [fst].
  assert (Htt : nth_error (upd (heap w) t (set_Msgs ms2)) t = Some (set_Msgs ms2 tx))
    by (rewrite nth_error_upd, Nat.eqb_refl, Ht; reflexivity).
  assert (Hpp : nth_error (upd (heap w) t (set_Msgs ms2)) p = Some dtx)
    by (rewrite nth_error_upd_other by congruence; exact Hp).
  destruct requeue.
  - rewrite Hpp in Hpass.
    destruct (RetryAttempt dtx <? FetchRetries cfg); injection Hpass as <-; cbn [store heap queue].
    + rewrite (nth_error_upd_other _ p t) by exact Hpt. rewrite Htt.
      repeat split; auto.
      right. split; [reflexivity|]. rewrite nth_error_upd, Nat.eqb_refl, Hpp. reflexivity.
    + rewrite Htt. repeat split; auto.
  - injection Hpass as <-; cbn [store heap queue]. rewrite Htt. repeat split; auto.
Qed.

(** A stored transaction and a second copy of it, queued in that order
    behind the copy. *)
Lemma worker_pass_duplicate_witness :
  exists w', worker_pass sample_cfg absent_env
               (mkWorld [("1", O)] [sample_tx; sample_tx] [1%nat]) = Some w'
  /\ store w' = [("1", O)]
  /\ option_map Msgs (nth_error (heap w') O) = Some (pass_msgs absent_env sample_cfg (Msgs sample_tx))
  /\ option_map RetryAttempt (nth_error (heap w') O) = Some (RetryAttempt sample_tx)
  /\ ((queue w' = [] /\ nth_error (heap w') 1 = Some sample_tx)
      \/ (queue w' = app [] [O]
          /\ nth_error (heap w') 1 = Some (set_RetryAttempt (RetryAttempt sample_tx + 1) sample_tx))).
Proof.
  destruct (worker_pass sample_cfg absent_env (mkWorld [("1", O)] [sample_tx; sample_tx] [1%nat]))
    as [w'|] eqn:E; [|vm_compute in E; discriminate].
  exists w'. split; [reflexivity|].
  apply (worker_pass_duplicate sample_cfg absent_env
           (mkWorld [("1", O)] [sample_tx; sample_tx] [1%nat]) w' 1 O [] sample_tx sample_tx);
    try reflexivity.
  - discriminate.
  - exact E.
Defined.

(** ** The broadcast queue built by one pass over a transaction *)

Lemma apply_dest_status (now : Z) (m : MessageState) (r : ReattestResult) :
  DestDomain (ApplyReattestResult now m r) = DestDomain m
  /\ (Status (ApplyReattestResult now m r) = Status m
      \/ Status (ApplyReattestResult now m r) = Failed).
Proof.
  unfold ApplyReattestResult.
  destruct (negb (ShouldReattest r)); [auto|].
  destruct (ExhaustedRetries r); [cbn; auto|].
  destruct (negb (String.eqb (NewAttestation r) "")), (0 <? NewExpirationBlock r); cbn; auto.
Qed.

Lemma expiry_step_queue env cfg i m bq rq m' bq' rq' :
  expiry_step env cfg i m bq rq = (m', bq', rq') ->
  DestDomain m' = DestDomain m /\ (Status m' = Status m \/ Status m' = Failed)
  /\ (bq' = bq \/ bq' = RemoveMessageFromQueue bq (DestDomain m) i).
Proof.
  unfold expiry_step.
  destruct (APIVersionV2 cfg && String.eqb (Status m) Attested && (0 <? ExpirationBlock m));
    [|intros H; injection H as <- <- <-; auto].
  destruct (lookup_domain (DestDomain m) (env_domains env)) as [ch|];
    [|intros H; injection H as <- <- <-; auto].
  destruct (HandleExpiringAttestation (env_svc env) m cfg (LatestBlock ch)) as [[r e] c].
  destruct (apply_dest_status (env_now env) m r) as [Hd Hs].
  destruct (RemoveFromQueue r); intros H; injection H as <- <- <-;
    rewrite ?Hd; auto.
Qed.

Lemma bq_indices_lookup (q : BroadcastQueue) (d : Z) (l : list nat) (k : nat) :
  bq_lookup d q = Some l -> In k l -> In k (bq_indices q).
Proof.
  intros Hl Hk. apply bq_lookup_In in Hl. unfold bq_indices.
  apply in_flat_map. exists (d, l). auto.
Qed.

(** Removing a message that is not queued changes nothing. *)
Lemma Remove_noop (q : BroadcastQueue) (d : Z) (i : nat) :
  bq_wf q -> ~ In i (bq_indices q) -> RemoveMessageFromQueue q d i = q.
Proof.
  induction q as [|[k l] q IH]; intros [Hnd Hne] Hi; [reflexivity|].
  cbn in Hnd. inversion Hnd as [|? ? Hk Hnd']; subst.
  inversion Hne as [|? ? Hl Hne']; subst.
  unfold bq_indices in Hi. cbn [flat_map snd] in Hi.
  cbn [RemoveMessageFromQueue]. destruct (k =? d).
  - rewrite filter_notin by (intros H; apply Hi, in_or_app; now left).
    destruct l; [cbn in Hl; congruence | reflexivity].
  - f_equal. apply IH; [split; auto|]. intros H; apply Hi, in_or_app; now right.
Qed.

Lemma append_indices (q : BroadcastQueue) (d : Z) (i : nat) :
  Permutation (bq_indices (bq_append d i q)) (i :: bq_indices q).
Proof.
  unfold bq_indices.
  induction q as [|[k l] q IH]; cbn [bq_append flat_map snd].
  - reflexivity.
  - destruct (k =? d); cbn [flat_map snd].
    + rewrite <- app_assoc. cbn [app]. apply Permutation_sym, Permutation_middle.
    + rewrite IH. apply Permutation_sym, Permutation_middle.
Qed.

(** One iteration of the message loop leaves the queue as it was, or
    queues the message itself, for its destination domain, at [Attested]
    or (re-attestation exhausted in the same pass) [Failed]. *)
Lemma process_msg_queue env cfg i m bq rq m' bq' rq' :
  bq_wf bq -> ~ In i (bq_indices bq) ->
  process_msg env cfg i m bq rq = (m', bq', rq') ->
  bq' = bq
  \/ (bq' = bq_append (DestDomain m') i bq /\ (Status m' = Attested \/ Status m' = Failed)).
Proof.
  intros Hwf Hi. unfold process_msg.
  set (msg := filter_step env m).
  assert (Hexp : forall mm, expiry_step env cfg i mm bq rq = (m', bq', rq') -> bq' = bq).
  { intros mm H. destruct (expiry_step_queue _ _ _ _ _ _ _ _ _ H) as (_ & _ & [-> | ->]);
      [reflexivity | now apply Remove_noop]. }
  destruct (String.eqb (Status msg) Created || String.eqb (Status msg) Pending);
    [|intros H; left; exact (Hexp _ H)].
  destruct (svc_check (env_svc env) msg) as [resp|]; [|intros H; injection H as _ <- _; now left].
  destruct (String.eqb (Status msg) Created
            && String.eqb (RespStatus resp) "pending_confirmations");
    [intros H; injection H as _ <- _; now left|].
  destruct (String.eqb (RespStatus resp) "pending_confirmations");
    [intros H; injection H as _ <- _; now left|].
  destruct (String.eqb (RespStatus resp) "complete"); [|intros H; left; exact (Hexp _ H)].
  match goal with |- expiry_step _ _ _ ?m3 _ _ = _ -> _ => set (msg3 := m3) end.
  assert (H3 : Status msg3 = Attested).
  { subst msg3. destruct (APIVersionV2 cfg); [|reflexivity].
    destruct (svc_v2_message _ _ _); reflexivity. }
  intros H. destruct (expiry_step_queue _ _ _ _ _ _ _ _ _ H) as (Hd & Hs & [-> | ->]).
  - right. rewrite Hd. split; [reflexivity|]. rewrite H3 in Hs. exact Hs.
  - left. apply append_Remove; [exact Hwf|].
    intros l Hl Hin. apply Hi. exact (bq_indices_lookup bq _ l i Hl Hin).
Qed.

Lemma process_msgs_queue_gen env cfg (ms : list MessageState) :
  forall i bq rq ms' bq' rq',
  bq_wf bq -> NoDup (bq_indices bq) -> (forall k, In k (bq_indices bq) -> (k < i)%nat) ->
  process_msgs env cfg i ms bq rq = (ms', bq', rq') ->
  bq_wf bq' /\ NoDup (bq_indices bq')
  /\ (forall k, In k (bq_indices bq') -> (k < i + length ms)%nat)
  /\ (forall d l k, bq_lookup d bq' = Some l -> In k l ->
        (exists l0, bq_lookup d bq = Some l0 /\ In k l0)
        \/ ((i <= k)%nat /\ exists m, nth_error ms' (k - i) = Some m /\ DestDomain m = d
                              /\ (Status m = Attested \/ Status m = Failed))).
Proof.
  induction ms as [|m ms IH]; intros i bq rq ms' bq' rq' Hwf Hnd Hlt Hp.
  - cbn in Hp. injection Hp as <- <- <-. cbn [length]. rewrite Nat.add_0_r.
    refine (conj Hwf (conj Hnd (conj Hlt _))). intros d l k Hl Hk. left. eauto.
  - cbn [process_msgs] in Hp.
    destruct (process_msg env cfg i m bq rq) as [[m1 bq1] rq1] eqn:E1.
    destruct (process_msgs env cfg (S i) ms bq1 rq1) as [[ms2 bq2] rq2] eqn:E2.
    injection Hp as <- <- <-.
    assert (Hi : ~ In i (bq_indices bq)) by (intros H; specialize (Hlt i H); lia).
    assert (Hstep : bq_wf bq1 /\ NoDup (bq_indices bq1)
                    /\ (forall k, In k (bq_indices bq1) -> (k < S i)%nat)
                    /\ (forall d l k, bq_lookup d bq1 = Some l -> In k l ->
                          (exists l0, bq_lookup d bq = Some l0 /\ In k l0)
                          \/ (k = i /\ DestDomain m1 = d
                              /\ (Status m1 = Attested \/ Status m1 = Failed)))).
    { destruct (process_msg_queue env cfg i m bq rq m1 bq1 rq1 Hwf Hi E1) as [-> | [-> Hs]].
      - refine (conj Hwf (conj Hnd (conj _ _))); [intros k Hk; specialize (Hlt k Hk); lia|].
        intros d l k Hl Hk. left. eauto.
      - destruct (append_spec bq (DestDomain m1) i Hwf) as (Hwf1 & Hd1 & Ho1).
        refine (conj Hwf1 (conj _ (conj _ _))).
        + eapply Permutation_NoDup; [apply Permutation_sym, append_indices|].
          constructor; assumption.
        + intros k Hk. eapply Permutation_in in Hk; [|apply append_indices].
          destruct Hk as [<- | Hk]; [lia | specialize (Hlt k Hk); lia].
        + intros d l k Hl Hk.
          destruct (Z.eq_dec d (DestDomain m1)) as [-> | Hne].
          * rewrite Hd1 in Hl. injection Hl as <-.
            destruct (bq_lookup (DestDomain m1) bq) as [l0|] eqn:El0.
            -- apply in_app_or in Hk. destruct Hk as [Hk | [<- | []]]; [left; eauto|].
               right. auto.
            -- destruct Hk as [<- | []]. right. auto.
          * rewrite (Ho1 d Hne) in Hl. left. eauto. }
    destruct Hstep as (Hwf1 & Hnd1 & Hlt1 & Hlk1).
    destruct (IH (S i) bq1 rq1 ms2 bq2 rq2 Hwf1 Hnd1 Hlt1 E2) as (Hwf2 & Hnd2 & Hlt2 & Hlk2).
    refine (conj Hwf2 (conj Hnd2 (conj _ _))).
    + intros k Hk. specialize (Hlt2 k Hk). cbn [length]. lia.
    + intros d l k Hl Hk. destruct (Hlk2 d l k Hl Hk) as [(l0 & Hl0 & Hk0) | (Hle & mm & Hn & Hmm)].
      * destruct (Hlk1 d l0 k Hl0 Hk0) as [Hold | (-> & Hd & Hs)]; [now left|].
        right. split; [lia|]. exists m1. rewrite Nat.sub_diag. auto.
      * right. split; [lia|]. exists mm.
        replace (k - i)%nat with (S (k - S i)) by lia. cbn [nth_error]. auto.
Qed.

(** Extra: the broadcast queue one pass over a transaction's messages
    builds (from an empty [broadcastMsgs]) is a Go map of non-empty slices
    in which no message index appears twice, and each queued index names a
    message of the updated list whose destination domain is the slice's
    key and whose status is [Attested] (queued on a "complete" answer) or
    [Failed] (its re-attestation budget ran out in the same pass, which
    does not take it out of the queue). *)
Theorem process_msgs_queue env cfg (ms : list MessageState) :
  let '(ms', bq, _) := process_msgs env cfg O ms [] false in
  bq_wf bq /\ NoDup (bq_indices bq)
  /\ forall d l k, bq_lookup d bq = Some l -> In k l ->
       exists m, nth_error ms' k = Some m /\ DestDomain m = d
                 /\ (Status m = Attested \/ Status m = Failed).
Proof.
  destruct (process_msgs env cfg O ms [] false) as [[ms' bq] rq] eqn:E.
  assert (Hwf0 : bq_wf []) by (split; constructor).
  assert (Hlt0 : forall k, In k (bq_indices []) -> (k < O)%nat) by (intros k []).
  destruct (process_msgs_queue_gen env cfg ms O [] false ms' bq rq Hwf0 (NoDup_nil _)
              Hlt0 E) as (Hwf & Hnd & _ & Hlk).
  refine (conj Hwf (conj Hnd _)).
  intros d l k Hl Hk. destruct (Hlk d l k Hl Hk) as [(l0 & Hl0 & _) | (_ & mm & Hn & Hmm)].
  - discriminate.
  - rewrite Nat.sub_0_r in Hn. eauto.
Qed.

(** ** The HTTP handler [getTxByHash] *)

Lemma fold_step_mono (l : list ascii) :
  forall n v, 0 <= n -> fold_left step_digit l (Some n) = Some v -> n <= v.
Proof.
  induction l as [|c l IH]; intros n v Hn Hf; cbn [fold_left] in Hf.
  - injection Hf as <-. lia.
  - unfold step_digit at 2 in Hf. unfold digit_val in Hf.
    destruct ((48 <=? nat_of_ascii c)%nat && (nat_of_ascii c <=? 57)%nat) eqn:Hd.
    + apply andb_prop in Hd as [H1 _]. apply Nat.leb_le in H1.
      apply IH in Hf; lia.
    + rewrite fold_step_none in Hf. discriminate.
Qed.

(** On a digit string the [ParseUint] loop answers the value when it fits
    and the clamped bound otherwise. *)
Lemma parse_uint_loop_digits (maxVal : Z) (l : list ascii) :
  forall n v, 0 <= n <= maxVal -> fold_left step_digit l (Some n) = Some v ->
  parse_uint_loop maxVal n l = if v <=? maxVal then (v, None) else (maxVal, Some ErrRange).
Proof.
  induction l as [|c l IH]; intros n v Hn Hf; cbn [fold_left parse_uint_loop] in *.
  - injection Hf as <-. destruct (Z.leb_spec n maxVal); [reflexivity | lia].
  - unfold step_digit at 2 in Hf.
    destruct (digit_val c) as [dd|] eqn:Hd; [|rewrite fold_step_none in Hf; discriminate].
    assert (Hdd : 0 <= dd).
    { unfold digit_val in Hd.
      destruct ((48 <=? nat_of_ascii c)%nat && (nat_of_ascii c <=? 57)%nat) eqn:Hb;
        [|discriminate].
      injection Hd as <-. apply andb_prop in Hb as [H1 _]. apply Nat.leb_le in H1. lia. }
    pose proof (fold_step_mono l (n * 10 + dd) v ltac:(nia) Hf) as Hmono.
    destruct (Z.ltb_spec maxVal (n * 10 + dd)).
    + destruct (Z.leb_spec v maxVal); [lia | reflexivity].
    + apply IH; [nia | exact Hf].
Qed.

Lemma digit_not_sign (c : ascii) (x : Z) :
  digit_val c = Some x -> Ascii.eqb c "+"%char = false /\ Ascii.eqb c "-"%char = false.
Proof.
  intros Hd. unfold digit_val in Hd.
  destruct ((48 <=? nat_of_ascii c)%nat && (nat_of_ascii c <=? 57)%nat) eqn:Hb;
    [|discriminate].
  apply andb_prop in Hb as [H1 _]. apply Nat.leb_le in H1.
  split; apply Ascii.eqb_neq; intros ->; cbn in H1; lia.
Qed.

(** [strconv.ParseInt(s, 10, 32)] of the decimal text of a [uint64]: the
    value below 2^31, else the range error with [MaxInt32]. *)
Lemma ParseInt_FormatUint (d : Z) :
  0 <= d < 2 ^ 64 ->
  ParseInt (FormatUint d) 32 = if d <? 2 ^ 31 then (d, None) else (2 ^ 31 - 1, Some ErrRange).
Proof.
  intros Hd.
  assert (Hp : parse_digits (format_digits 20 d) = Some d)
    by (apply parse_format_digits; split; [lia|]; change (Z.of_nat (S 20)) with 21;
        assert (H21 : 2 ^ 64 < 10 ^ 21) by reflexivity; lia).
  unfold FormatUint.
  destruct (format_digits 20 d) as [|c l] eqn:Hf;
    [exfalso; now apply (format_digits_nonempty 20 d)|].
  unfold parse_digits in Hp. cbn [fold_left] in Hp.
  assert (Hc : exists x, digit_val c = Some x).
  { unfold step_digit in Hp. destruct (digit_val c) as [x|]; [now exists x|].
    rewrite fold_step_none in Hp. discriminate. }
  destruct Hc as [x Hx]. destruct (digit_not_sign c x Hx) as [Hplus Hminus].
  cbn [string_of_list_ascii ParseInt]. rewrite Hplus, Hminus.
  unfold ParseUintBits.
  change (String c (string_of_list_ascii l)) with (string_of_list_ascii (c :: l)).
  rewrite list_ascii_of_string_of_list_ascii.
  rewrite (parse_uint_loop_digits (2 ^ 32 - 1) (c :: l) 0 d) by (cbn [fold_left]; lia || exact Hp).
  destruct (Z.leb_spec d (2 ^ 32 - 1)); destruct (Z.ltb_spec d (2 ^ 31)); cbn [negb andb];
    try (destruct (Z.leb_spec (2 ^ (32 - 1)) d); [lia|reflexivity]);
    try (destruct (Z.leb_spec (2 ^ (32 - 1)) d); [reflexivity|lia]);
    cbn; lia.
Qed.

(** A domain whose first character is neither a digit nor a sign is a
    syntax error: [ParseInt] answers 0. *)
Lemma ParseInt_bad_first (c : ascii) (rest : string) :
  digit_val c = None -> Ascii.eqb c "+"%char = false -> Ascii.eqb c "-"%char = false ->
  ParseInt (String c rest) 32 = (0, Some ErrSyntax).
Proof.
  intros Hd Hp Hm. cbn [ParseInt]. rewrite Hp, Hm. unfold ParseUintBits.
  cbn [list_ascii_of_string parse_uint_loop]. now rewrite Hd.
Qed.

Lemma FormatUint_nonempty (d : Z) : FormatUint d <> "".
Proof.
  unfold FormatUint. intros H.
  apply (format_digits_nonempty 20 d).
  rewrite <- (list_ascii_of_string_of_list_ascii (format_digits 20 d)), H. reflexivity.
Qed.

(** The handler once the domain is known to be non-empty and its parse is
    fixed. *)
Lemma getTxByHash_parsed (w : World) (h domain : string) (v : Z) (err : option NumError) :
  domain <> "" -> ParseInt domain 32 = (v, err) ->
  getTxByHash w h domain
  = let w1 := match err with
              | Some _ => [(400, BodyMessage "unable to parse domain")]
              | None => []
              end in
    match State_Load w h with
    | Some tx =>
        match Msgs tx with
        | [] => mkApiResponse w1 true
        | m0 :: _ =>
            mkApiResponse
              (app w1 [if SourceDomain m0 =? v mod 2 ^ 32 then (200, BodyMsgs (Msgs tx))
                       else (404, BodyMessage "message not found")]) false
        end
    | None => mkApiResponse w1 true
    end.
Proof.
  intros Hd Hp. unfold getTxByHash. rewrite Hp.
  apply String.eqb_neq in Hd. rewrite Hd. cbn [negb andb].
  destruct (State_Load w h) as [tx|]; [|destruct err; reflexivity].
  destruct (Msgs tx) as [|m0 ms]; [destruct err; reflexivity|].
  destruct err; destruct (SourceDomain m0 =? v mod 2 ^ 32); reflexivity.
Qed.

(** Extra: for a domain query that is the decimal text of an [int32]
    value [d] >= 0, the handler answers 200 with the stored messages when
    the FIRST message's source domain is [d] and 404 otherwise (other
    messages are not looked at); for an unknown hash or a stored
    transaction with no messages it writes nothing and panics
    ([tx.Msgs] on a nil [tx], [tx.Msgs[0]] out of range), so gin answers
    500 instead of 404. *)
Theorem getTxByHash_domain_int32 (w : World) (h : string) (d : Z) :
  0 <= d < 2 ^ 31 ->
  getTxByHash w h (FormatUint d)
  = match State_Load w h with
    | Some tx =>
        match Msgs tx with
        | [] => mkApiResponse [] true
        | m0 :: _ =>
            mkApiResponse
              [if SourceDomain m0 =? d then (200, BodyMsgs (Msgs tx))
               else (404, BodyMessage "message not found")] false
        end
    | None => mkApiResponse [] true
    end.
Proof.
  intros Hd.
  assert (Hp : ParseInt (FormatUint d) 32 = (d, None)).
  { rewrite ParseInt_FormatUint by lia. destruct (Z.ltb_spec d (2 ^ 31)); [reflexivity|lia]. }
  rewrite (getTxByHash_parsed w h (FormatUint d) d None (FormatUint_nonempty d) Hp).
  rewrite Z.mod_small by lia. reflexivity.
Qed.

Lemma getTxByHash_domain_int32_witness :
  getTxByHash completed_world "1" (FormatUint 0)
  = mkApiResponse [(200, BodyMsgs [set_Status Complete sample_msg])] false
  /\ getTxByHash completed_world "1" (FormatUint 4)
     = mkApiResponse [(404, BodyMessage "message not found")] false
  /\ getTxByHash completed_world "2" (FormatUint 4) = mkApiResponse [] true.
Proof.
  split; [|split].
  - rewrite (getTxByHash_domain_int32 completed_world "1" 0) by lia. reflexivity.
  - rewrite (getTxByHash_domain_int32 completed_world "1" 4) by lia. reflexivity.
  - rewrite (getTxByHash_domain_int32 completed_world "2" 4) by lia. reflexivity.
Defined.

(** Extra: a domain query starting with a character that is neither a
    digit nor a sign is a syntax error. The handler writes the 400 body
    and does not return: it goes on as if the domain were 0, writing a
    second body, 200 when the first message's source domain is 0 and 404
    otherwise, or panics after the 400 for an unknown hash or a
    transaction with no messages. *)
Theorem getTxByHash_domain_syntax_error (w : World) (h : string) (c : ascii) (rest : string) :
  digit_val c = None -> Ascii.eqb c "+"%char = false -> Ascii.eqb c "-"%char = false ->
  getTxByHash w h (String c rest)
  = match State_Load w h with
    | Some tx =>
        match Msgs tx with
        | [] => mkApiResponse [(400, BodyMessage "unable to parse domain")] true
        | m0 :: _ =>
            mkApiResponse
              [(400, BodyMessage "unable to parse domain");
               if SourceDomain m0 =? 0 then (200, BodyMsgs (Msgs tx))
               else (404, BodyMessage "message not found")] false
        end
    | None => mkApiResponse [(400, BodyMessage "unable to parse domain")] true
    end.
Proof.
  intros Hd Hp Hm.
  rewrite (getTxByHash_parsed w h (String c rest) 0 (Some ErrSyntax)) by
    (discriminate || now apply ParseInt_bad_first).
  reflexivity.
Qed.

Lemma getTxByHash_domain_syntax_error_witness :
  getTxByHash completed_world "1" "abc"
  = mkApiResponse [(400, BodyMessage "unable to parse domain");
                   (200, BodyMsgs [set_Status Complete sample_msg])] false.
Proof.
  rewrite (getTxByHash_domain_syntax_error completed_world "1" "a" "bc") by reflexivity.
  reflexivity.
Defined.

(** Extra: a domain query that is the decimal text of a [uint64] value
    at least 2^31 is a range error. The handler writes the 400 body and
    goes on with the clamped [MaxInt32] = 2^31 - 1: a second body, 200 only
    when the first message's source domain is 2^31 - 1 and 404 otherwise,
    or a panic after the 400 for an unknown hash or a transaction with no
    messages. *)
Theorem getTxByHash_domain_range_error (w : World) (h : string) (d : Z) :
  2 ^ 31 <= d < 2 ^ 64 ->
  getTxByHash w h (FormatUint d)
  = match State_Load w h with
    | Some tx =>
        match Msgs tx with
        | [] => mkApiResponse [(400, BodyMessage "unable to parse domain")] true
        | m0 :: _ =>
            mkApiResponse
              [(400, BodyMessage "unable to parse domain");
               if SourceDomain m0 =? 2 ^ 31 - 1 then (200, BodyMsgs (Msgs tx))
               else (404, BodyMessage "message not found")] false
        end
    | None => mkApiResponse [(400, BodyMessage "unable to parse domain")] true
    end.
Proof.
  intros Hd.
  assert (Hp : ParseInt (FormatUint d) 32 = (2 ^ 31 - 1, Some ErrRange)).
  { rewrite ParseInt_FormatUint by lia. destruct (Z.ltb_spec d (2 ^ 31)); [lia|reflexivity]. }
  rewrite (getTxByHash_parsed w h (FormatUint d) _ _ (FormatUint_nonempty d) Hp).
  rewrite (Z.mod_small (2 ^ 31 - 1)) by lia. reflexivity.
Qed.

Lemma getTxByHash_domain_range_error_witness :
  getTxByHash completed_world "1" (FormatUint 3000000000)
  = mkApiResponse [(400, BodyMessage "unable to parse domain");
                   (404, BodyMessage "message not found")] false.
Proof.
  rewrite (getTxByHash_domain_range_error completed_world "1" 3000000000) by lia.
  reflexivity.
Defined.

(** ** The Solana broadcaster *)

Lemma attempts_S (att : MessageState -> nat -> option string) (n k : nat) (m : MessageState) :
  broadcast_attempts att (S n) k m
  = if String.eqb (Status m) Complete then (m, O, true)
    else match att m k with
         | Some sig => (set_DestTxHash sig (set_Status Complete m), 1%nat, true)
         | None => let '(m', c, ok) := broadcast_attempts att n (S k) m in (m', S c, ok)
         end.
Proof. reflexivity. Qed.


Lemma attempts_spec (att : MessageState -> nat -> option string) (n : nat) :
  forall k m, let '(m', c, ok) := broadcast_attempts att n k m in
  (ok = true /\ String.eqb (Status m) Complete = true /\ (0 < n)%nat /\ m' = m /\ c = O)
  \/ (ok = true /\ String.eqb (Status m) Complete = false
      /\ exists j sig, (k <= j < k + n)%nat /\ att m j = Some sig
         /\ (forall j', (k <= j' < j)%nat -> att m j' = None)
         /\ m' = set_DestTxHash sig (set_Status Complete m) /\ c = S (j - k))
  \/ (ok = false /\ m' = m /\ c = n
      /\ (String.eqb (Status m) Complete = false \/ n = O)
      /\ (forall j, (k <= j < k + n)%nat -> att m j = None)).
Proof.
  induction n as [|n IH]; intros k m.
  - cbn. right; right. repeat split; auto. intros j Hj. lia.
  - rewrite attempts_S. destruct (String.eqb (Status m) Complete) eqn:Hc.
    + left. repeat split; auto. lia.
    + destruct (att m k) as [sig|] eqn:Ha.
      * right; left. split; [reflexivity|]. split; [reflexivity|].
        exists k, sig. repeat split; auto; try lia; intros j' Hj'; lia.
      * specialize (IH (S k) m).
        destruct (broadcast_attempts att n (S k) m) as [[m' c] ok].
        destruct IH as [(_ & H & _) | [(Ho & _ & j & sig & Hj & Hs & Hb & Hm & Hc') |
                                       (Ho & Hm & Hc' & _ & Hn)]].
        -- congruence.
        -- right; left. split; [exact Ho|]. split; [reflexivity|].
           exists j, sig. repeat split; auto; try lia.
           intros j' Hj'. destruct (Nat.eq_dec j' k) as [->|Hne]; [exact Ha|].
           apply Hb. lia.
        -- right; right. repeat split; auto.
           intros j Hj. destruct (Nat.eq_dec j k) as [->|Hne]; [exact Ha|].
           apply Hn. lia.
Qed.

(** Extra: the retry loop of [Broadcast] for one message ([n] iterations
    from attempt [k]) ends in one of three ways: the message was already
    [Complete], so no [attemptBroadcast] call is made and it is left as it
    is; or the first successful attempt [j] makes it [Complete] with that
    attempt's signature as [DestTxHash], after [j - k + 1] calls; or every
    one of the [n] calls failed, the message is unchanged and the loop ends
    without [continue MsgLoop] (an error is joined). *)
Theorem broadcast_attempts_bounds (att : MessageState -> nat -> option string) (n k : nat)
    (m : MessageState) :
  let '(m', c, ok) := broadcast_attempts att n k m in
  (ok = true /\ String.eqb (Status m) Complete = true /\ (0 < n)%nat /\ m' = m /\ c = O)
  \/ (ok = true /\ String.eqb (Status m) Complete = false
      /\ exists j sig, (k <= j < k + n)%nat /\ att m j = Some sig
         /\ (forall j', (k <= j' < j)%nat -> att m j' = None)
         /\ m' = set_DestTxHash sig (set_Status Complete m) /\ c = S (j - k))
  \/ (ok = false /\ m' = m /\ c = n
      /\ (String.eqb (Status m) Complete = false \/ n = O)
      /\ (forall j, (k <= j < k + n)%nat -> att m j = None)).
Proof. apply attempts_spec. Qed.




Lemma loop_negative (maxR : Z) (att : MessageState -> nat -> option string) :
  maxR < 0 ->
  forall ms nerrs, forallb attestation_decodes ms = true ->
  Solana_Broadcast_loop maxR att ms nerrs = BroadcastJoined ms (nerrs + length ms).
Proof.
  intros Hm ms. induction ms as [|x ms IH]; intros nerrs Hall; cbn [Solana_Broadcast_loop].
  - now rewrite Nat.add_0_r.
  - cbn [forallb] in Hall. apply andb_true_iff in Hall as [Hx Hall].
    unfold attestation_decodes in Hx. apply andb_true_iff in Hx as [H2 Hh].
    apply Nat.leb_le in H2.
    assert (E : (String.length (Attestation x) <? 2)%nat = false) by (apply Nat.ltb_ge; lia).
    rewrite E, Hh. cbn [negb].
    replace (Z.to_nat (maxR + 1)) with O by lia. cbn [broadcast_attempts].
    rewrite IH by exact Hall. cbn [length]. now rewrite Nat.add_succ_r.
Qed.

(** Extra: with a negative [maxRetries] the retry loop never runs, so
    [Broadcast] mints nothing and reports one error per message, also for
    messages already [Complete]. *)
Theorem Solana_Broadcast_negative_retries (maxR : Z) (att : MessageState -> nat -> option string)
    (ms : list MessageState) :
  maxR < 0 -> forallb attestation_decodes ms = true ->
  Solana_Broadcast maxR att ms = BroadcastJoined ms (length ms).
Proof. intros Hm Hall. apply (loop_negative maxR att Hm ms O Hall). Qed.

Lemma Solana_Broadcast_negative_retries_witness :
  Solana_Broadcast (-1) second_try [hex_msg; set_Status Complete hex_msg]
  = BroadcastJoined [hex_msg; set_Status Complete hex_msg] 2.
Proof. apply Solana_Broadcast_negative_retries; [lia | reflexivity]. Defined.

Lemma loop_bad (maxR : Z) (att : MessageState -> nat -> option string) (m : MessageState)
    (post : list MessageState) :
  attestation_decodes m = false ->
  forall pre nerrs, forallb attestation_decodes pre = true ->
  exists pre',
  Forall2 (fun x x' => exists c ok,
             broadcast_attempts att (Z.to_nat (maxR + 1)) O x = (x', c, ok)) pre pre'
  /\ Solana_Broadcast_loop maxR att (app pre (m :: post)) nerrs
     = if (String.length (Attestation m) <? 2)%nat then BroadcastPanic (app pre' (m :: post))
       else BroadcastDecodeError (app pre' (m :: post)).
Proof.
  intros Hm pre. induction pre as [|x pre IH]; intros nerrs Hall.
  - exists []. split; [constructor|]. cbn [app Solana_Broadcast_loop].
    unfold attestation_decodes in Hm.
    destruct (String.length (Attestation m) <? 2)%nat eqn:E; [reflexivity|].
    apply Nat.ltb_ge in E. apply Nat.leb_le in E. rewrite E in Hm. cbn [andb] in Hm.
    now rewrite Hm.
  - cbn [forallb] in Hall. apply andb_true_iff in Hall as [Hx Hall].
    unfold attestation_decodes in Hx. apply andb_true_iff in Hx as [H2 Hh].
    apply Nat.leb_le in H2.
    assert (E : (String.length (Attestation x) <? 2)%nat = false) by (apply Nat.ltb_ge; lia).
    cbn [app Solana_Broadcast_loop]. rewrite E, Hh. cbn [negb].
    destruct (broadcast_attempts att (Z.to_nat (maxR + 1)) O x) as [[x' c] ok] eqn:Hx'.
    destruct (IH (if ok then nerrs else S nerrs) Hall) as [pre' [Hf Hr]].
    rewrite Hr. exists (x' :: pre'). split.
    + constructor; [exists c, ok; exact Hx' | exact Hf].
    + destruct (String.length (Attestation m) <? 2)%nat; reflexivity.
Qed.

(** Extra: the first message whose attestation is shorter than two
    characters or is not hex after its first two makes [Broadcast] stop:
    a panic ([msg.Attestation[2:]]) or the decode error, with that message
    and the later ones untouched, while every message before it has already
    gone through its full retry loop (and may have been minted). *)
Theorem Solana_Broadcast_bad_attestation (maxR : Z) (att : MessageState -> nat -> option string)
    (pre post : list MessageState) (m : MessageState) :
  forallb attestation_decodes pre = true -> attestation_decodes m = false ->
  exists pre',
  Forall2 (fun x x' => exists c ok,
             broadcast_attempts att (Z.to_nat (maxR + 1)) O x = (x', c, ok)) pre pre'
  /\ Solana_Broadcast maxR att (app pre (m :: post))
     = if (String.length (Attestation m) <? 2)%nat then BroadcastPanic (app pre' (m :: post))
       else BroadcastDecodeError (app pre' (m :: post)).
Proof. intros Hall Hm. exact (loop_bad maxR att m post Hm pre O Hall). Qed.

Lemma Solana_Broadcast_bad_attestation_witness :
  exists pre',
  Forall2 (fun x x' => exists c ok,
             broadcast_attempts second_try (Z.to_nat (2 + 1)) O x = (x', c, ok)) [hex_msg] pre'
  /\ Solana_Broadcast 2 second_try (app [hex_msg] (sample_msg :: []))
     = if (String.length (Attestation sample_msg) <? 2)%nat
       then BroadcastPanic (app pre' (sample_msg :: []))
       else BroadcastDecodeError (app pre' (sample_msg :: [])).
Proof. apply Solana_Broadcast_bad_attestation; reflexivity. Defined.

(** ** The destination caller filter on Solana *)

Lemma bytes_eqb_eq (a b : list Byte.byte) : bytes_eqb a b = true -> a = b.
Proof.
  revert b; induction a as [|x a IH]; intros [|y b]; cbn; try discriminate; auto.
  intros H. apply andb_true_iff in H as [Hx Hb].
  apply Byte.byte_dec_bl in Hx. subst. f_equal. auto.
Qed.

Lemma EncodeToString_empty (b : list Byte.byte) : String.eqb (EncodeToString b) "" = Nat.eqb (length b) 0.
Proof. destruct b; reflexivity. Qed.

(** Extra: on a Solana destination (undecodable callers printed with
    [hex.EncodeToString]), a non-zero destination caller is dropped when it
    decodes to a key other than the minter's (in permissionless mode only if
    that key prints non-empty), and, when it does not decode, always in
    destination-caller-only mode but in permissionless mode only when it is
    non-empty: an empty caller passes. *)
Theorem DestinationCallerFilter_solana (domains : list (Z * Chain)) (only : bool)
    (msg : MessageState) (name : string) (lb : Z) (decode : list Byte.byte -> option string)
    (minter : string) (bc : list MessageState -> list (option string) * bool) :
  lookup_domain (DestDomain msg) domains
  = Some (mkChain name lb (Solana_IsDestinationCaller decode EncodeToString minter) bc) ->
  DestinationCaller msg <> zeroByteArr ->
  fst (fst (DestinationCallerFilter_Filter domains only msg))
  = match decode (DestinationCaller msg) with
    | None => only || negb (Nat.eqb (length (DestinationCaller msg)) 0)
    | Some a => negb (String.eqb a minter) && (only || negb (String.eqb a ""))
    end.
Proof.
  intros Hl Hz. unfold DestinationCallerFilter_Filter. rewrite Hl.
  cbn [IsDestinationCaller]. unfold Solana_IsDestinationCaller.
  destruct (bytes_eqb (DestinationCaller msg) zeroByteArr) eqn:Hb;
    [apply bytes_eqb_eq in Hb; contradiction|].
  destruct (decode (DestinationCaller msg)) as [a|].
  - destruct (String.eqb a minter); [reflexivity|].
    destruct (only || negb (String.eqb a "")); reflexivity.
  - rewrite EncodeToString_empty. cbn [negb].
    destruct (only || negb (Nat.eqb (length (DestinationCaller msg)) 0)); reflexivity.
Qed.

Lemma DestinationCallerFilter_solana_witness :
  fst (fst (DestinationCallerFilter_Filter [(5, hex_solana)] false
              (mkMsg "abc" Created "" 0 5 "0xtx" "" [] 0 7 "" 0 0 0)))
  = match (fun _ : list Byte.byte => @None string) [] with
    | None => false || negb (Nat.eqb (length (@nil Byte.byte)) 0)
    | Some a => negb (String.eqb a "minter") && (false || negb (String.eqb a ""))
    end.
Proof.
  apply (DestinationCallerFilter_solana [(5, hex_solana)] false
           (mkMsg "abc" Created "" 0 5 "0xtx" "" [] 0 7 "" 0 0 0) "solana" 920
           (fun _ => None) "minter" (fun ms => (map (fun _ => None) ms, true))).
  - reflexivity.
  - discriminate.
Defined.

(** ** A transaction seen for the first time *)

(** Extra: when the dequeued transaction's hash is not in the store yet,
    the pass stores it under the dequeued pointer, resets every message to
    [Created] before processing (so earlier statuses are forgotten), leaves
    the processed messages on that TxState, and either drops it from the
    queue or requeues that same pointer with one more retry counted. *)
Theorem worker_pass_first_sight (cfg : CircleSettings) (env : Env) (w w' : World)
    (p : nat) (rest : list nat) (dtx : TxState) :
  queue w = p :: rest ->
  nth_error (heap w) p = Some dtx ->
  lookup_store (TxHash dtx) (store w) = None ->
  worker_pass cfg env w = Some w' ->
  store w' = app (store w) [(TxHash dtx, p)]
  /\ option_map Msgs (nth_error (heap w') p)
     = Some (pass_msgs env cfg (map (set_Status Created) (Msgs dtx)))
  /\ ((queue w' = rest /\ option_map RetryAttempt (nth_error (heap w') p) = Some (RetryAttempt dtx))
      \/ (queue w' = app rest [p]
          /\ option_map RetryAttempt (nth_error (heap w') p) = Some (RetryAttempt dtx + 1))).
Proof.
  intros Hq Hp Hl Hpass. unfold worker_pass in Hpass. rewrite Hq, Hp, Hl in Hpass.
  unfold process_stored in Hpass.
  rewrite nth_error_upd, Nat.eqb_refl, Hp in Hpass. cbn [option_map Msgs set_Msgs] in Hpass.
  unfold pass_msgs.
  destruct (process_msgs env cfg O (map (set_Status Created) (Msgs dtx)) [] false)
    as [[ms1 bq] rq1] eqn:Hproc.
  destruct (broadcast_all env bq ms1 rq1) as [ms2 requeue] eqn:Hbc. cbn [fst].
  set (f := fun tx : TxState => set_Msgs (map (set_Status Created) (Msgs tx)) tx) in Hpass.
  assert (Hpp : nth_error (upd (upd (heap w) p f) p (set_Msgs ms2)) p
                = Some (set_Msgs ms2 (f dtx)))
    by (rewrite !nth_error_upd, Nat.eqb_refl, Hp; reflexivity).
  destruct requeue.
  - rewrite Hpp in Hpass. cbn [RetryAttempt set_Msgs f] in Hpass.
    destruct (RetryAttempt dtx <? FetchRetries cfg); injection Hpass as <-; cbn [store heap queue].
    + rewrite nth_error_upd, Nat.eqb_refl, Hpp. cbn. repeat split; auto.
    + rewrite Hpp. cbn. repeat split; auto.
  - injection Hpass as <-; cbn [store heap queue]. rewrite Hpp. cbn. repeat split; auto.
Qed.

Lemma worker_pass_first_sight_witness :
  exists w', worker_pass sample_cfg absent_env (mkWorld [] [sample_tx] [O]) = Some w'
  /\ store w' = app [] [(TxHash sample_tx, O)]
  /\ option_map Msgs (nth_error (heap w') O)
     = Some (pass_msgs absent_env sample_cfg (map (set_Status Created) (Msgs sample_tx)))
  /\ ((queue w' = [] /\ option_map RetryAttempt (nth_error (heap w') O)
                        = Some (RetryAttempt sample_tx))
      \/ (queue w' = app [] [O]
          /\ option_map RetryAttempt (nth_error (heap w') O) = Some (RetryAttempt sample_tx + 1))).
Proof.
  destruct (worker_pass sample_cfg absent_env (mkWorld [] [sample_tx] [O])) as [w'|] eqn:E;
    [|vm_compute in E; discriminate].
  exists w'. split; [reflexivity|].
  apply (worker_pass_first_sight sample_cfg absent_env (mkWorld [] [sample_tx] [O]) w' O []
           sample_tx); try reflexivity.
  exact E.
Defined.
